(** * FormCraft: the form rendering and validation engine

    A shallow embedding of [FormFactory] (the component of
    [app/components/form/FormFactory.tsx]): the validator [validateField],
    the submit handler [handleSubmit], the change handler
    [handleFieldChange], the multi-select toggle of [renderField], the
    [progress] expression and the session effect with its two timers.

    JavaScript data is modelled as the code uses it:
    - a string is its sequence of UTF-16 code units ([list N]), so that
      [length] is [String.prototype.length];
    - a number is NaN, an infinity or a finite rational (every finite
      double is one; [-0] and [0] are the same number here, as they are for
      [<], [>] and truthiness);
    - a [Record<string, any>] is a finite map from keys to values, read with
      [m[k]] giving [undefined] for a missing key (keys inherited from
      [Object.prototype] are outside the model);
    - [new RegExp(p).test(s)] and the conversion of a number to a string in
      a template literal are built-ins of the language, taken as
      parameters. *)

From Stdlib Require Import ZArith QArith Qround Qabs Lqa String Ascii List Bool Lia.
From stdpp Require Import base option list gmap.

Local Open Scope list_scope.

(** ** JavaScript values *)

Module JS.

(** A string: UTF-16 code units. *)
Abbreviation jsstring := (list N).

(** An ASCII literal as a JavaScript string. *)
Definition lit (s : string) : jsstring :=
  map N_of_ascii (list_ascii_of_string s).

Inductive number :=
| NaN
| Finite (q : Q)
| PosInf
| NegInf.

Definition Qltb (x y : Q) : bool :=
  (Qnum x * Zpos (Qden y) <? Qnum y * Zpos (Qden x))%Z.

(** [a < b] on numbers: false as soon as one side is NaN. *)
Definition num_lt (a b : number) : bool :=
  match a, b with
  | NaN, _ | _, NaN => false
  | Finite x, Finite y => Qltb x y
  | NegInf, NegInf => false
  | NegInf, _ => true
  | _, NegInf => false
  | PosInf, _ => false
  | Finite _, PosInf => true
  end.

(** [a > b] is [b < a]. *)
Definition num_gt (a b : number) : bool := num_lt b a.

Definition of_nat (n : nat) : number := Finite (inject_Z (Z.of_nat n)).

(** ToBoolean on a number: [0] and NaN are falsy. *)
Definition num_truthy (n : number) : bool :=
  match n with
  | NaN => false
  | Finite q => negb (Qnum q =? 0)%Z
  | PosInf | NegInf => true
  end.

(** The values an answer can hold ([any] in the source): the primitives,
    an array of strings (the value of a multi-select) and any other
    object (for instance a change event). *)
Inductive value :=
| VUndefined
| VNull
| VBool (b : bool)
| VNum (n : number)
| VStr (s : jsstring)
| VArr (l : list jsstring)
| VObj.

Definition str_truthy (s : jsstring) : bool :=
  match s with [] => false | _ :: _ => true end.

(** ToBoolean. *)
Definition truthy (v : value) : bool :=
  match v with
  | VUndefined | VNull => false
  | VBool b => b
  | VNum n => num_truthy n
  | VStr s => str_truthy s
  | VArr _ | VObj => true
  end.

(** WhiteSpace and LineTerminator code units, the ones
    [String.prototype.trim] strips. *)
Definition is_white_space (c : N) : bool :=
  ((c =? 9) || (c =? 10) || (c =? 11) || (c =? 12) || (c =? 13)
   || (c =? 32) || (c =? 160) || (c =? 5760)
   || ((8192 <=? c) && (c <=? 8202))
   || (c =? 8232) || (c =? 8233) || (c =? 8239) || (c =? 8287)
   || (c =? 12288) || (c =? 65279))%N.

Fixpoint trimStart (s : jsstring) : jsstring :=
  match s with
  | [] => []
  | c :: rest => if is_white_space c then trimStart rest else s
  end.

Definition trimEnd (s : jsstring) : jsstring := rev (trimStart (rev s)).

Definition trim (s : jsstring) : jsstring := trimEnd (trimStart s).

(** Optional properties ([min?: number]): a missing one reads as
    [undefined], which is falsy and compares as NaN. *)
Definition opt_num_truthy (o : option number) : bool :=
  match o with Some n => num_truthy n | None => false end.

Definition opt_str_truthy (o : option jsstring) : bool :=
  match o with Some s => str_truthy s | None => false end.

Definition ToNumber_opt (o : option number) : number :=
  match o with Some n => n | None => NaN end.

(** What a throwing call raises. *)
Inductive exn := SyntaxError.

(** A computation that returns or throws. *)
Inductive result (A : Type) :=
| Ok (a : A)
| Throw (e : exn).
Arguments Ok {A} a.
Arguments Throw {A} e.

Definition bind {A B} (r : result A) (k : A -> result B) : result B :=
  match r with
  | Ok a => k a
  | Throw e => Throw e
  end.

End JS.

Import JS.

(** [x ← r; k] runs [k] when [r] returns and propagates what it throws. *)
#[global] Instance result_bind : MBind result := fun A B k r => bind r k.
#[global] Instance result_ret : MRet result := fun A a => Ok a.

(** ** The schema *)

Inductive FieldType :=
| text | email | number_t | tel | date | textarea
| select | multiselect | checkbox | radio.

Record Validation := {
  min : option number;
  max : option number;
  pattern : option jsstring;
  minLength : option number;
  maxLength : option number;
}.

Record FieldOption := {
  opt_value : jsstring;
  opt_label : jsstring;
}.

Record FormField := {
  key : jsstring;
  type : FieldType;
  label : jsstring;
  placeholder : option jsstring;
  required : bool;
  validation : option Validation;
  options : option (list FieldOption);
  description : option jsstring;
}.

Record Settings := {
  allowAnonymous : bool;
  showProgress : bool;
  submitText : jsstring;
}.

Record FormSchema := {
  title : jsstring;
  schema_description : jsstring;
  fields : list FormField;
  settings : Settings;
}.

(** [formData] and [errors], the two [Record<string, ...>] states. *)
Abbreviation AnswerMap := (gmap (list N) value).
Abbreviation ErrorMap := (gmap (list N) (list N)).

(** [formData[k]]: a missing key reads as [undefined]. *)
Definition get (formData : AnswerMap) (k : jsstring) : value :=
  default VUndefined (formData !! k).

(** ** The validator *)

(** The fixed texts of the six messages ([233], [243] and [225] are the
    code units of e-acute, o-acute and a-acute). *)
Definition msg_required : jsstring :=
  lit " " ++ [233%N] ++ lit " obrigat" ++ [243%N] ++ lit "rio".
Definition msg_at_least_chars : jsstring := lit " deve ter pelo menos ".
Definition msg_at_most_chars : jsstring :=
  lit " deve ter no m" ++ [225%N] ++ lit "ximo ".
Definition msg_chars : jsstring := lit " caracteres".
Definition msg_at_least : jsstring := lit " deve ser pelo menos ".
Definition msg_at_most : jsstring :=
  lit " deve ser no m" ++ [225%N] ++ lit "ximo ".
Definition msg_format : jsstring :=
  lit " tem formato inv" ++ [225%N] ++ lit "lido".

(** [typeof value === 'string' && value.trim() === ''] *)
Definition is_blank_string (v : value) : bool :=
  match v with
  | VStr s => negb (str_truthy (trim s))
  | _ => false
  end.

(** [typeof value === 'string' && value.length < n] *)
Definition length_lt (v : value) (n : number) : bool :=
  match v with
  | VStr s => num_lt (of_nat (length s)) n
  | _ => false
  end.

(** [typeof value === 'string' && value.length > n] *)
Definition length_gt (v : value) (n : number) : bool :=
  match v with
  | VStr s => num_gt (of_nat (length s)) n
  | _ => false
  end.

(** [typeof value === 'number' && value < n] *)
Definition value_lt (v : value) (n : number) : bool :=
  match v with
  | VNum x => num_lt x n
  | _ => false
  end.

(** [typeof value === 'number' && value > n] *)
Definition value_gt (v : value) (n : number) : bool :=
  match v with
  | VNum x => num_gt x n
  | _ => false
  end.

(** ** The component state and the handlers that need no built-in *)

(** The two [useState] cells. *)
Record state := {
  formData : AnswerMap;
  errors : ErrorMap;
}.

(** [useState({})] twice. *)
Definition initial : state := {| formData := ∅; errors := ∅ |}.

(** [errors[k]] read as the code reads it, by truthiness: the message
    shown for [k], if any. *)
Definition error_at (errors : ErrorMap) (k : jsstring) : option jsstring :=
  match errors !! k with
  | Some (c :: m) => Some (c :: m)
  | Some [] | None => None
  end.

Definition handleFieldChange (k : jsstring) (v : value) (st : state) : state :=
  {| formData := <[k := v]> (formData st);
     errors := if opt_str_truthy (errors st !! k)
               then <[k := []]> (errors st)
               else errors st |}.

(** *** The multi-select control of [renderField] *)

(** [const value = formData[field.key] || ''] *)
Definition field_value (st : state) (field : FormField) : value :=
  let v := get (formData st) (key field) in
  if truthy v then v else VStr [].

(** [Array.isArray(value) ? value : []] *)
Definition selectedValues (st : state) (field : FormField) : list jsstring :=
  match field_value st field with
  | VArr l => l
  | _ => []
  end.

Definition includes (l : list jsstring) (x : jsstring) : bool :=
  bool_decide (x ∈ l).

(** [selectedValues.filter(v => v !== option.value)] *)
Definition without (l : list jsstring) (x : jsstring) : list jsstring :=
  List.filter (fun v => negb (bool_decide (v = x))) l.

Definition onCheckedChange (field : FormField) (option : FieldOption)
    (checked : bool) (st : state) : state :=
  if checked then
    handleFieldChange (key field)
      (VArr (selectedValues st field ++ [opt_value option])) st
  else
    handleFieldChange (key field)
      (VArr (without (selectedValues st field) (opt_value option))) st.

(** Modelled from the spec: the boolean control ([Checkbox], from
    [~/components/ui/checkbox], which is not among the sources). The
    specification has "N independent boolean controls over [options];
    toggling one adds/removes its value": the box of an option shows
    [checked={selectedValues.includes(option.value)}], and toggling it
    reports the opposite of what it shows to [onCheckedChange]. *)
Definition toggle (field : FormField) (option : FieldOption) (st : state)
    : state :=
  onCheckedChange field option
    (negb (includes (selectedValues st field) (opt_value option))) st.

(** A sequence of toggles on the boxes of one field. *)
Definition toggles (field : FormField) (opts : list FieldOption) (st : state)
    : state :=
  fold_left (fun st option => toggle field option st) opts st.

(** *** Progress *)

(** [v !== '' && v !== null && v !== undefined] *)
Definition answered (v : value) : bool :=
  match v with
  | VStr [] | VNull | VUndefined => false
  | _ => true
  end.







(** *** One render session *)

(** What the component holds during a session: the schema prop, the two
    state cells, and the calls of [onSubmit] made so far. *)
Record session := {
  schema : FormSchema;
  cells : state;
  submitted : list AnswerMap;
}.


Inductive event :=
| FieldChanged (k : jsstring) (v : value)
| Toggled (field : FormField) (option : FieldOption)
| SubmitAttempted.



(** ** The session effect: heartbeat and inactivity timers *)

(** What the effect of [FormFactory] holds once it ran: the identifiers
    its closures captured, the two timers, the activity updates it awaits,
    and the writes it issued. A timer is [None] when it was never set, was
    cleared, or (the timeout) has fired. [lastActivityRef] is written and
    never read, and is left out. *)
Record tracker := {
  formId : option jsstring;
  responseId : option jsstring;
  sessionId : option jsstring;
  activityInterval : bool;
  inactivityTimeout : option N;
  awaited : nat;
  activity_writes : nat;
  abandoned_writes : nat;
}.

(** [5 * 60 * 1000] *)
Definition inactivity_window : N := 5 * 60 * 1000.

(** [trackInactivity]: clear the pending timeout, set a new one. *)
Definition trackInactivity (t : tracker) : tracker :=
  {| formId := formId t; responseId := responseId t;
     sessionId := sessionId t; activityInterval := activityInterval t;
     inactivityTimeout := Some inactivity_window;
     awaited := awaited t;
     activity_writes := activity_writes t;
     abandoned_writes := abandoned_writes t |}.

(** [markAbandoned]: one update of [responses.abandoned_at]. *)
Definition markAbandoned (t : tracker) : tracker :=
  if negb (opt_str_truthy (responseId t)) then t
  else
    {| formId := formId t; responseId := responseId t;
       sessionId := sessionId t; activityInterval := activityInterval t;
       inactivityTimeout := inactivityTimeout t;
       awaited := awaited t;
       activity_writes := activity_writes t;
       abandoned_writes := S (abandoned_writes t) |}.

(** The body of the effect: nothing without both identifiers, else the
    interval and the first timeout. [trackSession()], the upsert whose
    answer becomes [sessionId], runs beside it; when the identifier
    changes the effect is cleaned up and runs again with the new one. *)
Definition mount (form response session_id : option jsstring) : tracker :=
  let t := {| formId := form; responseId := response;
              sessionId := session_id; activityInterval := false;
              inactivityTimeout := None; awaited := 0;
              activity_writes := 0; abandoned_writes := 0 |} in
  if negb (opt_str_truthy form) || negb (opt_str_truthy response) then t
  else
    trackInactivity
      {| formId := form; responseId := response;
         sessionId := session_id; activityInterval := true;
         inactivityTimeout := None; awaited := 0;
         activity_writes := 0; abandoned_writes := 0 |}.

(** The cleanup of the effect. *)
Definition cleanup (t : tracker) : tracker :=
  {| formId := formId t; responseId := responseId t;
     sessionId := sessionId t; activityInterval := false;
     inactivityTimeout := None;
     awaited := awaited t;
     activity_writes := activity_writes t;
     abandoned_writes := abandoned_writes t |}.

(** [updateActivity] up to its [await]: the guard on the session
    identifier, then the update of [sessions.last_active_at] is issued. *)
Definition updateActivity (t : tracker) : tracker :=
  if negb (opt_str_truthy (sessionId t)) then t
  else
    {| formId := formId t; responseId := responseId t;
       sessionId := sessionId t; activityInterval := activityInterval t;
       inactivityTimeout := inactivityTimeout t;
       awaited := S (awaited t);
       activity_writes := S (activity_writes t);
       abandoned_writes := abandoned_writes t |}.

(** [updateActivity] after its [await] (the update settled, or its
    failure was caught): [trackInactivity()]. *)
Definition updateActivity_resumed (t : tracker) : tracker :=
  match awaited t with
  | O => t
  | S n =>
      trackInactivity
        {| formId := formId t; responseId := responseId t;
           sessionId := sessionId t; activityInterval := activityInterval t;
           inactivityTimeout := inactivityTimeout t;
           awaited := n;
           activity_writes := activity_writes t;
           abandoned_writes := abandoned_writes t |}
  end.

(** What happens to the tracker: time passes, the 30-second interval
    fires (the heartbeat), an awaited activity update settles. *)
Inductive tick :=
| Elapse (ms : N)
| Heartbeat
| Settled.

(** [ms] milliseconds pass: a pending timeout that comes due runs its
    callback, [markAbandoned], and is pending no more. *)
Definition elapse (ms : N) (t : tracker) : tracker :=
  match inactivityTimeout t with
  | None => t
  | Some remaining =>
      if (remaining <=? ms)%N then
        markAbandoned
          {| formId := formId t; responseId := responseId t;
             sessionId := sessionId t; activityInterval := activityInterval t;
             inactivityTimeout := None;
             awaited := awaited t;
             activity_writes := activity_writes t;
             abandoned_writes := abandoned_writes t |}
      else
        {| formId := formId t; responseId := responseId t;
           sessionId := sessionId t; activityInterval := activityInterval t;
           inactivityTimeout := Some (remaining - ms)%N;
           awaited := awaited t;
           activity_writes := activity_writes t;
           abandoned_writes := abandoned_writes t |}
  end.

Definition tracker_step (t : tracker) (e : tick) : tracker :=
  match e with
  | Elapse ms => elapse ms t
  | Heartbeat => if activityInterval t then updateActivity t else t
  | Settled => updateActivity_resumed t
  end.

Definition tracker_run (t : tracker) (es : list tick) : tracker :=
  fold_left tracker_step es t.

(** The time that passes in a schedule. *)
Definition elapsed (es : list tick) : N :=
  fold_right (fun e total => match e with
                             | Elapse ms => (ms + total)%N
                             | _ => total
                             end) 0%N es.

(** A schedule in which no activity update settles. *)
Definition no_update (es : list tick) : Prop :=
  Forall (fun e => e <> Settled) es.

(** What holds of the tracker throughout: a pending timeout has time
    left, and timers exist only when the effect went past its guard on
    the two identifiers. *)
Definition tracked (t : tracker) : Prop :=
  (forall remaining,
      inactivityTimeout t = Some remaining -> (0 < remaining)%N)
  /\ (opt_str_truthy (responseId t) = true
      \/ (inactivityTimeout t = None /\ awaited t = 0
          /\ activityInterval t = false)).

(** The liveness claim: a window without an activity update ends in
    exactly one abandoned-mark write and no rearming, and a heartbeat
    before the window elapses prevents the write and rearms the timer. *)
Definition liveness_as_stated (t : tracker) : Prop :=
  (forall remaining es,
      inactivityTimeout t = Some remaining ->
      no_update es -> (remaining <= elapsed es)%N ->
      abandoned_writes (tracker_run t es) = S (abandoned_writes t)
      /\ inactivityTimeout (tracker_run t es) = None)
  /\ (forall remaining ms,
        activityInterval t = true ->
        inactivityTimeout t = Some remaining -> (ms < remaining)%N ->
        let t' := tracker_run t [Elapse ms; Heartbeat; Settled] in
        abandoned_writes t' = abandoned_writes t
        /\ inactivityTimeout t' = Some inactivity_window).

(** ** The words of the specification *)

(** An absent value: no answer was given. *)
Definition absent (v : value) : bool :=
  match v with
  | VUndefined | VNull => true
  | _ => false
  end.

(** A string that is empty or whitespace-only. *)
Definition blank (v : value) : bool :=
  match v with
  | VStr s => forallb is_white_space s
  | _ => false
  end.

(** ** The text inputs of [renderField] *)

(** [e.target?.value || e] on the change event of an [Input] or a
    [Textarea] whose text is [text]: the text, or the event object itself
    when the text is the empty string. *)
Definition changed_value (text : jsstring) : value :=
  if str_truthy text then VStr text else VObj.

(** [baseProps.onChange] *)
Definition onChange (field : FormField) (text : jsstring) (st : state)
    : state :=
  handleFieldChange (key field) (changed_value text) st.

(** The field with the bounds [min] and [max] taken out of what it
    declares. *)
Definition without_bounds (field : FormField) : FormField :=
  {| key := key field; type := type field; label := label field;
     placeholder := placeholder field; required := required field;
     validation :=
       match validation field with
       | Some c =>
           Some {| min := None; max := None; pattern := pattern c;
                   minLength := minLength c; maxLength := maxLength c |}
       | None => None
       end;
     options := options field; description := description field |}.

(** The field with [minLength], [maxLength] and [pattern] taken out. *)
Definition without_text_rules (field : FormField) : FormField :=
  {| key := key field; type := type field; label := label field;
     placeholder := placeholder field; required := required field;
     validation :=
       match validation field with
       | Some c =>
           Some {| min := min c; max := max c; pattern := None;
                   minLength := None; maxLength := None |}
       | None => None
       end;
     options := options field; description := description field |}.

(** [typeof v] is ['string'] or ['number']. *)
Definition is_text_or_number (v : value) : bool :=
  match v with
  | VStr _ | VNum _ => true
  | _ => false
  end.

(** ** The heartbeat of the session effect *)

(** [setInterval(..., 30000)] *)
Definition heartbeat_period : N := 30000.

(** One period of the interval: the heartbeat fires, its activity update
    settles [latency] milliseconds later, and the rest of the period
    passes. *)
Definition heartbeat_round (latency : N) : list tick :=
  [Heartbeat; Elapse latency; Settled; Elapse (heartbeat_period - latency)].

(** The time from the mount to the first heartbeat, then one round for
    each latency. *)
Definition heartbeat_rounds (latencies : list N) : list tick :=
  Elapse heartbeat_period :: concat (heartbeat_round <$> latencies).

(** ** The page that answers a form ([routes/form.$id.tsx]) *)

Module FormResponse.

(** A row of [response_items] as the page inserts it. *)
Record ResponseItem := {
  response_id : jsstring;
  field_key : jsstring;
  value_json : value;
  valid : bool;
}.

(** [Object.entries(formData).map(([key, value]) => ({...}))] *)
Definition responseItems (responseId : jsstring) (formData : AnswerMap)
    : list ResponseItem :=
  (fun entry : jsstring * value =>
     {| response_id := responseId; field_key := entry.1;
        value_json := entry.2; valid := true |})
  <$> map_to_list formData.

(** The requests the handler sends to the store. *)
Inductive request :=
| UpdateStatusSubmitted (responseId : jsstring)
| InsertItems (items : list ResponseItem).

(** [toast.success] and [toast.error]. *)
Inductive toast :=
| ToastSuccess
| ToastError.

(** The state of the page the handler reads and writes. *)
Record page := {
  id : option jsstring;
  schema : option FormSchema;
  responseId : option jsstring;
  submitting : bool;
}.

(** [handleSubmit(formData)]: the page after it, the requests it sent and
    the toasts it showed. [update_ok] and [insert_ok] say whether the
    store answered the two requests without an error. *)
Definition handleSubmit (update_ok insert_ok : bool) (formData : AnswerMap)
    (p : page) : page * list request * list toast :=
  match schema p with
  | Some sch =>
      if negb (opt_str_truthy (id p)) || negb (opt_str_truthy (responseId p))
      then (p, [], [])
      else
        let r := default [] (responseId p) in
        let done := {| id := id p; schema := schema p;
                       responseId := responseId p; submitting := false |} in
        if negb update_ok then
          (done, [UpdateStatusSubmitted r], [ToastError])
        else if negb insert_ok then
          (done,
           [UpdateStatusSubmitted r; InsertItems (responseItems r formData)],
           [ToastError])
        else
          ({| id := id p; schema := Some sch;
              responseId := responseId p; submitting := false |},
           [UpdateStatusSubmitted r; InsertItems (responseItems r formData)],
           [ToastSuccess])
  | None => (p, [], [])
  end.

End FormResponse.

(** ** The page that lists the responses ([routes/responses.$formId.tsx]) *)

Module FormResponses.

Record ResponseItem := {
  id : jsstring;
  field_key : jsstring;
  value_json : value;
  valid : bool;
  confidence : option number;
  created_at : jsstring;
}.

Inductive Status := status_draft | status_submitted.

Record Response := {
  response_id : jsstring;
  status : Status;
  response_created_at : jsstring;
  updated_at : jsstring;
  abandoned_at : option jsstring;
  response_items : list ResponseItem;
}.




(** [response.response_items.find(ri => ri.field_key === field.key)] *)
Definition find_item (items : list ResponseItem) (k : jsstring)
    : option ResponseItem :=
  List.find (fun ri => bool_decide (field_key ri = k)) items.



(** [Array.prototype.join] on strings. *)
Fixpoint join (sep : jsstring) (l : list jsstring) : jsstring :=
  match l with
  | [] => []
  | [x] => x
  | x :: rest => x ++ sep ++ join sep rest
  end.

Section CsvExport.

(** [JSON.stringify(v)] as a template literal prints it. *)
Variable JSON_stringify : value -> jsstring.

(** [new Date(s).toLocaleString('pt-BR')] *)
Variable toLocaleString : jsstring -> jsstring.

(** The [form] state: [schema_json] is [null] or a schema. *)
Record FormData := {
  form_id : jsstring;
  title : jsstring;
  description : jsstring;
  schema_json : option FormSchema;
  form_created_at : jsstring;
}.

(** [form.schema_json?.fields], an array when it is truthy. *)
Definition schema_fields (form : FormData) : list FormField :=
  match schema_json form with
  | Some sch => fields sch
  | None => []
  end.

(** The five fixed headers ([231] and [227] are the code units of
    c-cedilla and a-tilde). *)
Definition fixed_headers : list jsstring :=
  [lit "ID"; lit "Status";
   lit "Data de Cria" ++ [231%N; 227%N] ++ lit "o";
   lit "Data de Atualiza" ++ [231%N; 227%N] ++ lit "o";
   lit "Abandonado"].

(** [field.label || field.key] *)
Definition header_of (field : FormField) : jsstring :=
  if str_truthy (label field) then label field else key field.

Definition headers (form : FormData) : list jsstring :=
  fixed_headers ++ (header_of <$> schema_fields form).

Definition status_text (s : Status) : jsstring :=
  match s with
  | status_draft => lit "draft"
  | status_submitted => lit "submitted"
  end.

(** The cell of a field: the item's value between double quotes, or two
    double quotes when the response has no item for the field. *)
Definition cell (r : Response) (field : FormField) : jsstring :=
  let text :=
    match find_item (response_items r) (key field) with
    | Some item => JSON_stringify (value_json item)
    | None => []
    end in
  [34%N] ++ text ++ [34%N].

Definition row (form : FormData) (r : Response) : list jsstring :=
  [response_id r; status_text (status r);
   toLocaleString (response_created_at r); toLocaleString (updated_at r);
   if opt_str_truthy (abandoned_at r) then lit "Sim"
   else lit "N" ++ [227%N] ++ lit "o"]
  ++ (cell r <$> schema_fields form).

(** The lines of the file, each still a list of cells. *)
Definition csv_lines (form : FormData) (responses : list Response)
    : list (list jsstring) :=
  headers form :: (row form <$> responses).

(** [exportToCSV]: nothing without a form or without responses, else the
    content of the file and its name. *)
Definition exportToCSV (form : option FormData) (responses : list Response)
    : option (jsstring * jsstring) :=
  match form, responses with
  | Some f, _ :: _ =>
      Some (join [10%N] (join (lit ",") <$> csv_lines f responses),
            title f ++ lit "_respostas.csv")
  | _, _ => None
  end.

End CsvExport.

End FormResponses.


(** The guard of [FormResponse.handleSubmit] lets the page through:
    [id], [schema] and [responseId] are all truthy. *)
Definition ready (p : FormResponse.page) : bool :=
  opt_str_truthy (FormResponse.id p)
  && bool_decide (is_Some (FormResponse.schema p))
  && opt_str_truthy (FormResponse.responseId p).

(** ** Built-ins and data to run the examples with *)

Definition is_digit (c : N) : bool := ((48 <=? c) && (c <=? 57))%N.

(** A regular-expression engine for the examples. It agrees with
    JavaScript's on the two patterns they use: [[], which does not
    compile, and [^\d{5}$], five decimal digits and nothing else. No
    example tests another pattern (it is taken to accept every string). *)
Definition sample_RegExp_test (p s : jsstring) : option bool :=
  if bool_decide (p = lit "[") then None
  else if bool_decide (p = lit "^\d{5}$") then
    Some ((length s =? 5)%nat && forallb is_digit s)
  else Some true.

Definition digit_of (d : nat) : N := (48 + N.of_nat d)%N.

Fixpoint decimal (fuel n : nat) (acc : jsstring) : jsstring :=
  match fuel with
  | O => acc
  | S fuel' =>
      let acc' := digit_of (n mod 10) :: acc in
      if (n <? 10)%nat then acc' else decimal fuel' (n / 10) acc'
  end.

(** Number printing for the examples: it agrees with JavaScript's on NaN,
    the infinities and the integers the examples print. *)
Definition sample_Number_toString (n : number) : jsstring :=
  match n with
  | NaN => lit "NaN"
  | PosInf => lit "Infinity"
  | NegInf => lit "-Infinity"
  | Finite q =>
      let z := Qfloor q in
      let digits := decimal (S (Z.to_nat (Z.abs z))) (Z.to_nat (Z.abs z)) [] in
      if (z <? 0)%Z then lit "-" ++ digits else digits
  end.

Definition sample_field (k : string) (ty : FieldType) (req : bool)
    (v : option Validation) : FormField :=
  {| key := lit k; type := ty; label := lit k; placeholder := None;
     required := req; validation := v; options := None;
     description := None |}.

Definition sample_option (v : string) : FieldOption :=
  {| opt_value := lit v; opt_label := lit v |}.

(** A multi-select over the options [a] and [b]. *)
Definition sample_multiselect : FormField :=
  {| key := lit "tags"; type := multiselect; label := lit "Tags";
     placeholder := None; required := false; validation := None;
     options := Some [sample_option "a"; sample_option "b"];
     description := None |}.

Definition sample_schema (fs : list FormField) : FormSchema :=
  {| title := lit "Form"; schema_description := [];
     fields := fs;
     settings := {| allowAnonymous := true; showProgress := true;
                    submitText := lit "Enviar" |} |}.

Definition only_min (n : Q) : Validation :=
  {| min := Some (Finite n); max := None; pattern := None;
     minLength := None; maxLength := None |}.

Definition only_max (n : Q) : Validation :=
  {| min := None; max := Some (Finite n); pattern := None;
     minLength := None; maxLength := None |}.

Definition only_maxLength (n : Q) : Validation :=
  {| min := None; max := None; pattern := None;
     minLength := None; maxLength := Some (Finite n) |}.

Definition only_pattern (p : string) : Validation :=
  {| min := None; max := None; pattern := Some (lit p);
     minLength := None; maxLength := None |}.

(** An optional field that declares every constraint, with a pattern
    that does not compile. *)
Definition every_constraint : Validation :=
  {| min := Some (Finite 5); max := Some (Finite 9);
     pattern := Some (lit "[");
     minLength := Some (Finite 3); maxLength := Some (Finite 8) |}.

(** The schema of the two submit examples of the specification: one
    required e-mail field. *)
Definition email_schema : FormSchema :=
  sample_schema [sample_field "email" email true None].

Definition email_answered : state :=
  {| formData := {[ lit "email" := VStr (lit "a@b.com") ]}; errors := ∅ |}.

(** A schema whose first field has a pattern that does not compile, and
    whose second field is required. *)
Definition broken_pattern_schema : FormSchema :=
  sample_schema [sample_field "zip" text false (Some (only_pattern "["));
                 sample_field "email" email true None].

Definition zip_answered : state :=
  {| formData := {[ lit "zip" := VStr (lit "1") ]}; errors := ∅ |}.



(** A session whose [sessions] upsert gave no identifier. *)
Definition silent_tracker : tracker :=
  mount (Some (lit "form-1")) (Some (lit "response-1")) None.

(** Five minutes of heartbeats, one every 30 seconds. *)
Definition ten_heartbeats : list tick :=
  concat (replicate 10 [Elapse 30000; Heartbeat]).

(** A required multi-select that declares every constraint. *)
Definition required_multiselect : FormField :=
  {| key := lit "tags"; type := multiselect; label := lit "Tags";
     placeholder := None; required := true;
     validation := Some every_constraint;
     options := Some [sample_option "a"; sample_option "b"];
     description := None |}.

(** A tracker whose [sessions] upsert gave an identifier. *)
Definition live_tracker : tracker :=
  mount (Some (lit "form-1")) (Some (lit "response-1"))
        (Some (lit "session-1")).


Section Engine.

(** [RegExp_test p s] is [new RegExp(p).test(s)]: [None] when the
    constructor throws a SyntaxError on [p]. *)
Variable RegExp_test : jsstring -> jsstring -> option bool.

(** A number as a template literal prints it. *)
Variable Number_toString : number -> jsstring.

Definition show (o : option number) : jsstring :=
  Number_toString (ToNumber_opt o).

Definition validateField (field : FormField) (v : value)
    : result (option jsstring) :=
  if required field && (negb (truthy v) || is_blank_string v) then
    Ok (Some (label field ++ msg_required))
  else if negb (truthy v) && negb (required field) then
    Ok None
  else
    match validation field with
    | None => Ok None
    | Some validation =>
        if opt_num_truthy (minLength validation)
           && length_lt v (ToNumber_opt (minLength validation)) then
          Ok (Some (label field ++ msg_at_least_chars
                      ++ show (minLength validation) ++ msg_chars))
        else if opt_num_truthy (maxLength validation)
           && length_gt v (ToNumber_opt (maxLength validation)) then
          Ok (Some (label field ++ msg_at_most_chars
                      ++ show (maxLength validation) ++ msg_chars))
        else if opt_num_truthy (min validation)
           && value_lt v (ToNumber_opt (min validation)) then
          Ok (Some (label field ++ msg_at_least ++ show (min validation)))
        else if opt_num_truthy (max validation)
           && value_gt v (ToNumber_opt (max validation)) then
          Ok (Some (label field ++ msg_at_most ++ show (max validation)))
        else
          match pattern validation, v with
          | Some p, VStr s =>
              if str_truthy p then
                match RegExp_test p s with
                | None => Throw SyntaxError
                | Some matches =>
                    if negb matches
                    then Ok (Some (label field ++ msg_format))
                    else Ok None
                end
              else Ok None
          | _, _ => Ok None
          end
    end.

(** The [forEach] of [handleSubmit], threading [newErrors] and
    [hasErrors]; a throwing [validateField] leaves the loop. *)
Fixpoint validate_fields (fs : list FormField) (formData : AnswerMap)
    (newErrors : ErrorMap) (hasErrors : bool) : result (ErrorMap * bool) :=
  match fs with
  | [] => Ok (newErrors, hasErrors)
  | field :: rest =>
      error ← validateField field (get formData (key field));
      if opt_str_truthy error then
        validate_fields rest formData
          (<[key field := default [] error]> newErrors) true
      else validate_fields rest formData newErrors hasErrors
  end.

(** [handleSubmit]: the state after it and the calls of [onSubmit] it
    made, each with its argument. *)
Definition handleSubmit (sch : FormSchema) (st : state)
    : result (state * list AnswerMap) :=
  '(newErrors, hasErrors) ←
    validate_fields (fields sch) (formData st) ∅ false;
  Ok ({| formData := formData st; errors := newErrors |},
      if hasErrors : bool then [] else [formData st]).

(** An event handler that throws leaves both state cells as they were:
    [setErrors] is not reached. *)
Definition step (s : session) (e : event) : session :=
  match e with
  | FieldChanged k v =>
      {| schema := schema s; cells := handleFieldChange k v (cells s);
         submitted := submitted s |}
  | Toggled field option =>
      {| schema := schema s; cells := toggle field option (cells s);
         submitted := submitted s |}
  | SubmitAttempted =>
      match handleSubmit (schema s) (cells s) with
      | Ok (st, calls) =>
          {| schema := schema s; cells := st;
             submitted := submitted s ++ calls |}
      | Throw _ => s
      end
  end.

Definition run (s : session) (es : list event) : session :=
  fold_left step es s.

(** The fields of [fs] that fail, in schema order, written into [acc]:
    what the loop of [handleSubmit] leaves in [newErrors] when no
    validation throws. *)
Definition failure (formData : AnswerMap) (field : FormField)
    : option jsstring :=
  match validateField field (get formData (key field)) with
  | Ok (Some (c :: m)) => Some (c :: m)
  | _ => None
  end.

Definition collect (fs : list FormField) (formData : AnswerMap)
    (acc : ErrorMap) : ErrorMap :=
  fold_left
    (fun acc field =>
       match failure formData field with
       | Some e => <[key field := e]> acc
       | None => acc
       end)
    fs acc.

(** Rules 3 to 7 as the specification words them: the value violates a
    constraint the field declares. *)
Definition violates (field : FormField) (v : value) : bool :=
  match validation field with
  | None => false
  | Some c =>
      match v with
      | VStr s =>
          match minLength c with
          | Some n => num_lt (of_nat (length s)) n
          | None => false
          end
          || match maxLength c with
             | Some n => num_gt (of_nat (length s)) n
             | None => false
             end
          || match pattern c with
             | Some p =>
                 match RegExp_test p s with
                 | Some true => false
                 | _ => true
                 end
             | None => false
             end
      | VNum x =>
          match min c with Some n => num_lt x n | None => false end
          || match max c with Some n => num_gt x n | None => false end
      | _ => false
      end
  end.

(** *** The rules as a list *)

(** One rule of the validator: it does not apply ([None]), or it decides
    the validation. *)
Definition rule : Type := FormField -> value -> option (result (option jsstring)).

(** A numeric threshold the field declares; one that is missing, [0] or
    NaN declares nothing. *)
Definition declared (threshold : Validation -> option number)
    (field : FormField) : option number :=
  c ← validation field;
  n ← threshold c;
  if num_truthy n then Some n else None.

Definition declared_pattern (field : FormField) : option jsstring :=
  c ← validation field;
  p ← pattern c;
  if str_truthy p then Some p else None.

Definition rule_required : rule := fun field v =>
  if required field && (negb (truthy v) || is_blank_string v)
  then Some (Ok (Some (label field ++ msg_required)))
  else None.

Definition rule_absent_optional : rule := fun field v =>
  if negb (truthy v) && negb (required field) then Some (Ok None) else None.

Definition rule_minLength : rule := fun field v =>
  match declared minLength field, v with
  | Some n, VStr s =>
      if num_lt (of_nat (length s)) n
      then Some (Ok (Some (label field ++ msg_at_least_chars
                             ++ Number_toString n ++ msg_chars)))
      else None
  | _, _ => None
  end.

Definition rule_maxLength : rule := fun field v =>
  match declared maxLength field, v with
  | Some n, VStr s =>
      if num_gt (of_nat (length s)) n
      then Some (Ok (Some (label field ++ msg_at_most_chars
                             ++ Number_toString n ++ msg_chars)))
      else None
  | _, _ => None
  end.

Definition rule_min : rule := fun field v =>
  match declared min field, v with
  | Some n, VNum x =>
      if num_lt x n
      then Some (Ok (Some (label field ++ msg_at_least ++ Number_toString n)))
      else None
  | _, _ => None
  end.

Definition rule_max : rule := fun field v =>
  match declared max field, v with
  | Some n, VNum x =>
      if num_gt x n
      then Some (Ok (Some (label field ++ msg_at_most ++ Number_toString n)))
      else None
  | _, _ => None
  end.

Definition rule_pattern : rule := fun field v =>
  match declared_pattern field, v with
  | Some p, VStr s =>
      match RegExp_test p s with
      | None => Some (Throw SyntaxError)
      | Some true => None
      | Some false => Some (Ok (Some (label field ++ msg_format)))
      end
  | _, _ => None
  end.

(** The rules in the order of the specification. *)
Definition rules : list rule :=
  [rule_required; rule_absent_optional; rule_minLength; rule_maxLength;
   rule_min; rule_max; rule_pattern].

(** The first rule that applies decides; when none does there is no
    error. *)
Fixpoint first_applying (rs : list rule) (field : FormField) (v : value)
    : result (option jsstring) :=
  match rs with
  | [] => Ok None
  | r :: rest =>
      match r field v with
      | Some outcome => outcome
      | None => first_applying rest field v
      end
  end.

(** *** Claims as the specification states them *)

(** The submit contract: the pass produces the complete [ErrorMap], and
    [onSubmit] is called, once and with the answers, exactly when it
    holds no error. *)
Definition submit_contract_as_stated (sch : FormSchema) (st : state) : Prop :=
  exists newErrors calls,
    handleSubmit sch st
      = Ok ({| formData := formData st; errors := newErrors |}, calls)
    /\ (forall field e,
          field ∈ fields sch ->
          validateField field (get (formData st) (key field)) = Ok (Some e) ->
          is_Some (error_at newErrors (key field)))
    /\ (calls = [formData st] <-> forall k, error_at newErrors k = None)
    /\ ((exists k, is_Some (error_at newErrors k)) -> calls = []).

(** The required rule: an absent or blank value is refused, every other
    value that violates no declared constraint is accepted. *)
Definition required_rule_as_stated (field : FormField) (v : value) : Prop :=
  required field = true ->
  (absent v || blank v = true ->
     validateField field v = Ok (Some (label field ++ msg_required)))
  /\ (absent v || blank v = false ->
      violates field v = false ->
      validateField field v = Ok None).

(** * Properties *)

(** ** The validator *)

(** Every message of the validator is a non-empty string, so [if (error)]
    in [handleSubmit] tells a message from [null]. *)
Lemma validateField_message field v e :
  validateField field v = Ok (Some e) -> str_truthy e = true.
Proof.
  unfold validateField.
  repeat match goal with
         | |- context [if ?b then _ else _] => destruct b
         | |- context [match validation field with _ => _ end] =>
             destruct (validation field) as [c|]
         | |- context [match pattern ?c with _ => _ end] =>
             destruct (pattern c)
         | |- context [match v with _ => _ end] => destruct v
         | |- context [match RegExp_test ?p ?s with _ => _ end] =>
             destruct (RegExp_test p s) as [[]|]
         end;
    intros [= <-] || discriminate.
  all: destruct (label field); reflexivity.
Qed.

Lemma failure_spec formData field e :
  failure formData field = Some e <->
  validateField field (get formData (key field)) = Ok (Some e).
Proof.
  unfold failure. split.
  - destruct (validateField field _) as [[[|c m]|]|]; congruence.
  - intros H. rewrite H. pose proof (validateField_message _ _ _ H) as Hm.
    destruct e; [discriminate | reflexivity].
Qed.

(** C7: for every optional field, an absent value yields no error and no
    further rule is evaluated, whatever constraints the field declares. *)
Theorem optional_absent_is_valid field v :
  required field = false ->
  absent v = true ->
  validateField field v = Ok None.
Proof.
  intros Hopt Habs. unfold validateField. rewrite Hopt.
  destruct v; simpl in Habs; try discriminate; reflexivity.
Qed.

(** ** Changing a value *)

(** C6: a value change stores the value under its key, leaves that key
    without an error whatever was there before and whatever the new value
    is, and touches no other key of either map. *)
Theorem handleFieldChange_effect (k : jsstring) (v : value) (st : state) :
  let st' := handleFieldChange k v st in
  formData st' !! k = Some v
  /\ get (formData st') k = v
  /\ error_at (errors st') k = None
  /\ (forall k', k' <> k ->
        formData st' !! k' = formData st !! k'
        /\ errors st' !! k' = errors st !! k').
Proof.
  cbn zeta. unfold handleFieldChange, get, error_at; simpl.
  rewrite lookup_insert_eq. repeat split; trivial.
  - destruct (errors st !! k) as [[|c m]|] eqn:E; simpl.
    + now rewrite E.
    + now rewrite lookup_insert_eq.
    + now rewrite E.
  - now apply lookup_insert_ne.
  - destruct (opt_str_truthy (errors st !! k)); trivial.
    now apply lookup_insert_ne.
Qed.

(** ** Submitting *)

Lemma exn_unique (e : exn) : e = SyntaxError.
Proof. now destruct e. Qed.

Lemma validate_fields_returns fs fd : forall acc b,
  (forall field, field ∈ fs ->
     validateField field (get fd (key field)) <> Throw SyntaxError) ->
  exists b',
    validate_fields fs fd acc b = Ok (collect fs fd acc, b')
    /\ (b' = true <->
        b = true \/ exists field, field ∈ fs /\ is_Some (failure fd field)).
Proof.
  induction fs as [|f fs IH]; intros acc b Hok; simpl.
  - exists b. split; [reflexivity|]. split; [now left|].
    intros [?|(field & Hin & _)]; [trivial | now apply elem_of_nil in Hin].
  - assert (Hf := Hok f ltac:(left)).
    unfold failure at 1.
    destruct (validateField f (get fd (key f))) as [r|e] eqn:Ef;
      [|now rewrite (exn_unique e) in Hf].
    cbn [mbind result_bind bind].
    assert (Hrest : forall field, field ∈ fs ->
              validateField field (get fd (key field)) <> Throw SyntaxError)
      by (intros; apply Hok; now right).
    destruct r as [[|c m]|]; simpl.
    + destruct (IH acc b Hrest) as (b' & -> & Hb'). exists b'.
      split; [reflexivity|]. rewrite Hb'. split.
      * intros [?|(field & ? & ?)]; [now left | right; exists field].
        split; [now right | trivial].
      * intros [?|(field & Hin & Hs)]; [now left|].
        apply elem_of_cons in Hin as [->|Hin].
        -- unfold failure in Hs. rewrite Ef in Hs. now destruct Hs.
        -- right. now exists field.
    + destruct (IH (<[key f := c :: m]> acc) true Hrest) as (b' & -> & Hb').
      exists b'. split; [reflexivity|]. split; intros _.
      * right. exists f. split; [left|].
        unfold failure. rewrite Ef. now eexists.
      * apply Hb'. now left.
    + destruct (IH acc b Hrest) as (b' & -> & Hb'). exists b'.
      split; [reflexivity|]. rewrite Hb'. split.
      * intros [?|(field & ? & ?)]; [now left | right; exists field].
        split; [now right | trivial].
      * intros [?|(field & Hin & Hs)]; [now left|].
        apply elem_of_cons in Hin as [->|Hin].
        -- unfold failure in Hs. rewrite Ef in Hs. now destruct Hs.
        -- right. now exists field.
Qed.

(** A validation that throws ends the pass: the fields after it are not
    validated. *)
Lemma validate_fields_throws fs fd : forall acc b,
  (exists field, field ∈ fs
     /\ validateField field (get fd (key field)) = Throw SyntaxError) ->
  validate_fields fs fd acc b = Throw SyntaxError.
Proof.
  induction fs as [|f fs IH]; intros acc b (field & Hin & Hthrow).
  - now apply elem_of_nil in Hin.
  - simpl. destruct (validateField f (get fd (key f))) as [r|e] eqn:Ef.
    + apply elem_of_cons in Hin as [->|Hin]; [congruence|].
      cbn [mbind result_bind bind].
      destruct (opt_str_truthy r); apply IH; now exists field.
    + cbn. now rewrite (exn_unique e).
Qed.

Lemma handleSubmit_throws sch st :
  (exists field, field ∈ fields sch
     /\ validateField field (get (formData st) (key field))
        = Throw SyntaxError) ->
  handleSubmit sch st = Throw SyntaxError.
Proof.
  intros H. unfold handleSubmit.
  now rewrite (validate_fields_throws _ _ ∅ false H).
Qed.

Lemma collect_cons f fs fd acc :
  collect (f :: fs) fd acc
  = collect fs fd (match failure fd f with
                   | Some e => <[key f := e]> acc
                   | None => acc
                   end).
Proof. reflexivity. Qed.

(** Every entry of the collected errors is the message of a failing
    field, or was there before. *)
Lemma collect_lookup_inv fs fd : forall acc k e,
  collect fs fd acc !! k = Some e ->
  acc !! k = Some e
  \/ exists field, field ∈ fs /\ key field = k /\ failure fd field = Some e.
Proof.
  induction fs as [|f fs IH]; intros acc k e H; [now left|].
  rewrite collect_cons in H. apply IH in H as [H|(field & ? & ? & ?)].
  - destruct (failure fd f) as [e'|] eqn:Ef; [|now left].
    destruct (decide (key f = k)) as [<-|Hne].
    + rewrite lookup_insert_eq in H. injection H as ->.
      right. exists f. repeat split; [left | trivial].
    + rewrite lookup_insert_ne in H by trivial. now left.
  - right. exists field. repeat split; trivial. now right.
Qed.

Lemma collect_keeps fs fd : forall acc k,
  is_Some (acc !! k) -> is_Some (collect fs fd acc !! k).
Proof.
  induction fs as [|f fs IH]; intros acc k H; [trivial|].
  rewrite collect_cons. apply IH.
  destruct (failure fd f); [|trivial].
  destruct (decide (key f = k)) as [<-|Hne].
  - rewrite lookup_insert_eq. now eexists.
  - now rewrite lookup_insert_ne.
Qed.

(** No failing field is lost: its key holds a message. *)
Lemma collect_complete fs fd : forall acc field,
  field ∈ fs -> is_Some (failure fd field) ->
  is_Some (collect fs fd acc !! key field).
Proof.
  induction fs as [|f fs IH]; intros acc field Hin Hfail.
  - now apply elem_of_nil in Hin.
  - rewrite collect_cons. apply elem_of_cons in Hin as [->|Hin].
    + destruct Hfail as [e ->]. apply collect_keeps.
      rewrite lookup_insert_eq. now eexists.
    + now apply IH.
Qed.

(** With keys that are unique, each key holds the verdict of its own
    field. *)
Lemma collect_unique fs fd : forall acc field,
  NoDup (key <$> fs) -> field ∈ fs ->
  (forall f, f ∈ fs -> acc !! key f = None) ->
  collect fs fd acc !! key field = failure fd field.
Proof.
  induction fs as [|f fs IH]; intros acc field Hnd Hin Hacc.
  - now apply elem_of_nil in Hin.
  - rewrite fmap_cons in Hnd. apply NoDup_cons in Hnd as [Hnotin Hnd].
    rewrite collect_cons. apply elem_of_cons in Hin as [->|Hin].
    + destruct (collect fs fd _ !! key f) as [e|] eqn:E.
      * apply collect_lookup_inv in E as [E|(g & Hg & Hk & _)].
        -- destruct (failure fd f).
           ++ now rewrite lookup_insert_eq in E.
           ++ rewrite Hacc in E by left. discriminate.
        -- exfalso. apply Hnotin. rewrite <- Hk.
           now apply list_elem_of_fmap_2.
      * destruct (failure fd f) as [e|] eqn:Ef; [|reflexivity].
        exfalso.
        assert (is_Some (collect fs fd (<[key f := e]> acc) !! key f)) as [? ?]
          by (apply collect_keeps; rewrite lookup_insert_eq; now eexists).
        congruence.
    + apply IH; trivial. intros g Hg.
      destruct (failure fd f).
      * rewrite lookup_insert_ne; [apply Hacc; now right|].
        intros Heq. apply Hnotin. rewrite Heq.
        now apply list_elem_of_fmap_2.
      * apply Hacc. now right.
Qed.

Lemma failure_truthy fd field e :
  failure fd field = Some e -> str_truthy e = true.
Proof.
  intros H. apply failure_spec in H. eapply validateField_message; eauto.
Qed.

Lemma error_at_collect fs fd k :
  error_at (collect fs fd ∅) k = collect fs fd ∅ !! k.
Proof.
  unfold error_at. destruct (collect fs fd ∅ !! k) as [e|] eqn:E; [|trivial].
  apply collect_lookup_inv in E as [E|(f & _ & _ & Hf)].
  - now rewrite lookup_empty in E.
  - apply failure_truthy in Hf. now destruct e.
Qed.

(** C1 (as amended): when no validation of the pass throws, the validator
    runs over every field in schema order, a failure stopping nothing, and
    produces the complete error map; [onSubmit] is called, once and with
    the answers as they are, exactly when that map holds no error, and not
    at all otherwise. *)
Theorem submit_contract (sch : FormSchema) (st : state) :
  (forall field, field ∈ fields sch ->
     validateField field (get (formData st) (key field))
     <> Throw SyntaxError) ->
  exists newErrors calls,
    handleSubmit sch st
      = Ok ({| formData := formData st; errors := newErrors |}, calls)
    /\ newErrors = collect (fields sch) (formData st) ∅
    /\ (forall field e,
          field ∈ fields sch ->
          validateField field (get (formData st) (key field)) = Ok (Some e) ->
          is_Some (error_at newErrors (key field)))
    /\ (forall k e,
          error_at newErrors k = Some e ->
          exists field,
            field ∈ fields sch /\ key field = k
            /\ validateField field (get (formData st) (key field))
               = Ok (Some e))
    /\ (NoDup (key <$> fields sch) ->
        forall field,
          field ∈ fields sch ->
          validateField field (get (formData st) (key field))
          = Ok (error_at newErrors (key field)))
    /\ (calls = [formData st] <-> forall k, error_at newErrors k = None)
    /\ ((exists k, is_Some (error_at newErrors k)) -> calls = []).
Proof.
  intros Hok. unfold handleSubmit.
  destruct (validate_fields_returns _ _ ∅ false Hok) as (b & -> & Hb).
  cbn [mbind result_bind bind].
  set (newErrors := collect (fields sch) (formData st) ∅).
  assert (Hfail : b = true <-> exists k, is_Some (error_at newErrors k)).
  { rewrite Hb. split.
    - intros [?|(field & Hin & Hs)]; [discriminate|].
      exists (key field). subst newErrors. rewrite error_at_collect.
      now apply collect_complete.
    - intros (k & e & He). right. subst newErrors.
      rewrite error_at_collect in He.
      apply collect_lookup_inv in He as [He|(field & ? & ? & Hf)].
      + now rewrite lookup_empty in He.
      + exists field. split; [trivial|]. now exists e. }
  exists newErrors, (if b then [] else [formData st]).
  repeat split; trivial.
  - intros field e Hin He. subst newErrors. rewrite error_at_collect.
    apply collect_complete; trivial. exists e. now apply failure_spec.
  - intros k e He. subst newErrors. rewrite error_at_collect in He.
    apply collect_lookup_inv in He as [He|(field & ? & ? & Hf)].
    + now rewrite lookup_empty in He.
    + exists field. repeat split; trivial. now apply failure_spec.
  - intros Hnd field Hin. subst newErrors. rewrite error_at_collect.
    rewrite collect_unique by (trivial || (intros; apply lookup_empty)).
    assert (Hf := Hok field Hin). unfold failure.
    destruct (validateField field _) as [[e|]|x] eqn:E; trivial.
    + apply validateField_message in E.
      destruct e; [discriminate | reflexivity].
    + destruct x. congruence.
  - destruct b; [discriminate|]. intros _ k.
    destruct (error_at newErrors k) eqn:E; [|trivial].
    assert (false = true) by (apply Hfail; exists k; rewrite E; eexists; reflexivity).
    discriminate.
  - intros Hnone. destruct b; [|reflexivity].
    destruct (proj1 Hfail eq_refl) as (k & e & He).
    rewrite Hnone in He. discriminate.
  - intros Hsome. apply Hfail in Hsome. now subst b.
Qed.

(** C10: a submit attempt leaves every answer as it was, whether it is
    accepted, refused or interrupted; what it writes is the error map,
    computed afresh from the schema and the answers alone. *)
Theorem submit_keeps_answers (s : session) :
  formData (cells (step s SubmitAttempted)) = formData (cells s)
  /\ (forall k, get (formData (cells (step s SubmitAttempted))) k
                = get (formData (cells s)) k)
  /\ (forall st' calls,
        handleSubmit (schema s) (cells s) = Ok (st', calls) ->
        formData st' = formData (cells s)
        /\ forall old,
             handleSubmit (schema s)
               {| formData := formData (cells s); errors := old |}
             = Ok (st', calls)).
Proof.
  assert (H : formData (cells (step s SubmitAttempted)) = formData (cells s)).
  { simpl. unfold handleSubmit.
    destruct (validate_fields _ _ _ _) as [[errs b]|e]; reflexivity. }
  split; [exact H|]. split; [intros k; now rewrite H|].
  intros st' calls Hs. split.
  - unfold handleSubmit in Hs.
    destruct (validate_fields _ _ _ _) as [[errs b]|e]; [|discriminate].
    cbn in Hs. now injection Hs as <- _.
  - intros old. exact Hs.
Qed.


(** ** The required rule *)

Lemma trimStart_nil s :
  trimStart s = [] <-> forallb is_white_space s = true.
Proof.
  induction s as [|c s IH]; simpl; [tauto|].
  destruct (is_white_space c); simpl; [exact IH|].
  split; discriminate.
Qed.

Lemma trimStart_head s c r :
  trimStart s = c :: r -> is_white_space c = false.
Proof.
  induction s as [|d s IH]; simpl; [discriminate|].
  destruct (is_white_space d) eqn:E; [exact IH|].
  now intros [= <- _].
Qed.

Lemma forallb_white_rev s :
  forallb is_white_space (rev s) = forallb is_white_space s.
Proof.
  induction s as [|c s IH]; simpl; [reflexivity|].
  rewrite forallb_app, IH. simpl. rewrite andb_true_r. apply andb_comm.
Qed.

(** [value.trim() === ''] holds of the empty and the whitespace-only
    strings, and of no other. *)
Lemma trim_nil s : trim s = [] <-> forallb is_white_space s = true.
Proof.
  unfold trim, trimEnd.
  rewrite <- (rev_involutive []) at 1. simpl.
  split.
  - intros H. apply (f_equal (@rev N)) in H.
    rewrite rev_involutive in H. simpl in H.
    apply trimStart_nil in H. rewrite forallb_white_rev in H.
    destruct (trimStart s) as [|c r] eqn:E; [now apply trimStart_nil|].
    apply trimStart_head in E. simpl in H. now rewrite E in H.
  - intros H. apply trimStart_nil in H. now rewrite H.
Qed.

Lemma is_blank_string_blank v : is_blank_string v = blank v.
Proof.
  destruct v as [| | | |s| |]; simpl; trivial.
  destruct (forallb is_white_space s) eqn:E.
  - apply trim_nil in E. now rewrite E.
  - destruct (trim s) eqn:Et; [|reflexivity].
    apply trim_nil in Et. congruence.
Qed.

(** C3 (as amended): for a required field, an absent value and a string
    that is empty or whitespace-only get the required error, which starts
    with the label; and a truthy value that is not such a string and
    violates no declared constraint gets no error. *)
Theorem required_rule (field : FormField) (v : value) :
  required field = true ->
  (absent v || blank v = true ->
     validateField field v = Ok (Some (label field ++ msg_required)))
  /\ (truthy v = true -> blank v = false ->
      violates field v = false ->
      validateField field v = Ok None).
Proof.
  intros Hreq. unfold validateField. rewrite Hreq, is_blank_string_blank.
  split.
  - intros H. destruct v; simpl in *; try discriminate; trivial.
    + now rewrite H, orb_true_r.
  - intros Ht Hb Hv. rewrite Ht, Hb. cbn [negb orb andb].
    unfold violates in Hv. destruct (validation field) as [c|]; [|reflexivity].
    destruct (minLength c) as [n1|], (maxLength c) as [n2|],
      (min c) as [n3|], (max c) as [n4|], (pattern c) as [p|];
      destruct v as [| |b|x|s|l|];
      cbn [opt_num_truthy ToNumber_opt length_lt length_gt value_lt
           value_gt andb orb] in *;
      unfold num_gt in *;
      rewrite ?andb_false_r;
      repeat match goal with
             | H : _ || _ = false |- _ => apply orb_false_iff in H as [? ?]
             end;
      repeat match goal with
             | H : ?x = false |- context [?x] => rewrite H
             end;
      rewrite ?andb_false_r;
      try reflexivity;
      (destruct (str_truthy p); [|reflexivity]);
      destruct (RegExp_test p s) as [[]|]; reflexivity || discriminate.
Qed.

(** ** The multi-select *)

Lemma selectedValues_changed field l st :
  selectedValues (handleFieldChange (key field) (VArr l) st) field = l.
Proof.
  unfold selectedValues, field_value, handleFieldChange, get; simpl.
  now rewrite lookup_insert_eq.
Qed.

Lemma without_spec l x y : y ∈ without l x <-> y ∈ l /\ y <> x.
Proof.
  unfold without. rewrite !list_elem_of_In, filter_In.
  rewrite negb_true_iff, bool_decide_eq_false. tauto.
Qed.

(** Removing keeps the others in the order they were in. *)
Lemma without_sublist l x : without l x `sublist_of` l.
Proof.
  induction l as [|y l IH]; simpl; [constructor|].
  destruct (negb (bool_decide (y = x))); now constructor.
Qed.

Lemma includes_spec l x : includes l x = true <-> x ∈ l.
Proof. apply bool_decide_eq_true. Qed.

Lemma toggle_on field option st :
  opt_value option ∉ selectedValues st field ->
  selectedValues (toggle field option st) field
  = selectedValues st field ++ [opt_value option].
Proof.
  intros Hnot. unfold toggle, onCheckedChange.
  destruct (includes _ _) eqn:E;
    [now apply includes_spec in E|].
  apply selectedValues_changed.
Qed.

Lemma toggle_off field option st :
  opt_value option ∈ selectedValues st field ->
  selectedValues (toggle field option st) field
  = without (selectedValues st field) (opt_value option).
Proof.
  intros Hin. apply includes_spec in Hin.
  unfold toggle, onCheckedChange. rewrite Hin.
  apply selectedValues_changed.
Qed.

Lemma toggle_NoDup field option st :
  NoDup (selectedValues st field) ->
  NoDup (selectedValues (toggle field option st) field).
Proof.
  intros Hnd.
  destruct (decide (opt_value option ∈ selectedValues st field)) as [Hin|Hnot].
  - rewrite toggle_off by trivial.
    eauto using sublist_NoDup, without_sublist.
  - rewrite toggle_on by trivial.
    apply NoDup_app. repeat split; trivial.
    + intros x Hx Hx'. apply list_elem_of_singleton in Hx'. now subst.
    + apply NoDup_singleton.
Qed.

Lemma toggles_NoDup field opts : forall st,
  NoDup (selectedValues st field) ->
  NoDup (selectedValues (toggles field opts st) field).
Proof.
  induction opts as [|o opts IH]; intros st Hnd; [trivial|].
  apply IH. now apply toggle_NoDup.
Qed.

(** C5: turning an option on appends its value to the sequence, turning it
    off removes it and keeps the rest in order; a sequence built by
    toggling never holds a value twice; and from no value, [a] on, [b] on,
    [a] off leaves [["b"]]. *)
Theorem multiselect_toggle (field : FormField) (option : FieldOption)
    (st : state) :
  let sel := selectedValues st field in
  let o := opt_value option in
  get (formData (onCheckedChange field option true st)) (key field)
  = VArr (sel ++ [o])
  /\ (get (formData (onCheckedChange field option false st)) (key field)
      = VArr (without sel o)
      /\ (o ∉ without sel o)
      /\ (without sel o `sublist_of` sel)
      /\ forall x, x ∈ sel -> x <> o -> x ∈ without sel o)
  /\ (o ∉ sel -> selectedValues (toggle field option st) field = sel ++ [o])
  /\ (o ∈ sel -> selectedValues (toggle field option st) field = without sel o)
  /\ (forall opts,
        NoDup sel -> NoDup (selectedValues (toggles field opts st) field))
  /\ (forall opts, NoDup (selectedValues (toggles field opts initial) field))
  /\ get (formData
            (toggles sample_multiselect
               [sample_option "a"; sample_option "b"; sample_option "a"]
               initial))
         (key sample_multiselect)
     = VArr [lit "b"].
Proof.
  cbn zeta. repeat apply conj.
  - unfold onCheckedChange, handleFieldChange, get; simpl.
    now rewrite lookup_insert_eq.
  - unfold onCheckedChange, handleFieldChange, get; simpl.
    now rewrite lookup_insert_eq.
  - rewrite without_spec. tauto.
  - apply without_sublist.
  - intros x Hx Hne. now apply without_spec.
  - apply toggle_on.
  - apply toggle_off.
  - intros opts. apply toggles_NoDup.
  - intros opts. apply toggles_NoDup. constructor.
  - vm_compute. reflexivity.
Qed.

(** ** Progress *)












(** ** The session liveness tracker *)

Lemma mount_tracked form response sid : tracked (mount form response sid).
Proof.
  unfold mount, tracked.
  destruct (opt_str_truthy form) eqn:Ef, (opt_str_truthy response) eqn:Er;
    simpl; split; auto 6; try discriminate.
  intros remaining [= <-]. reflexivity.
Qed.

Lemma tracker_step_tracked t e : tracked t -> tracked (tracker_step t e).
Proof.
  unfold tracked. intros [Hpos Hguard]. split.
  - intros remaining. destruct e as [ms| |]; simpl.
    + unfold elapse, markAbandoned.
      destruct (inactivityTimeout t) as [r|] eqn:Et; [|now rewrite Et].
      destruct (N.leb_spec r ms) as [Hle|Hlt]; simpl.
      * destruct (negb _); simpl; discriminate.
      * intros [= <-]. lia.
    + unfold updateActivity.
      destruct (activityInterval t); [destruct (negb _)|]; simpl; apply Hpos.
    + unfold updateActivity_resumed.
      destruct (awaited t); simpl; [apply Hpos|].
      intros [= <-]. reflexivity.
  - destruct Hguard as [Hr|(Ht & Ha & Hi)].
    + left. destruct e as [ms| |]; simpl.
      * unfold elapse, markAbandoned.
        destruct (inactivityTimeout t) as [r|]; trivial.
        destruct (r <=? ms)%N; simpl; trivial. now rewrite Hr.
      * unfold updateActivity.
        destruct (activityInterval t), (opt_str_truthy (sessionId t));
          trivial.
      * unfold updateActivity_resumed. now destruct (awaited t).
    + destruct e as [ms| |]; simpl.
      * unfold elapse. rewrite Ht. auto.
      * rewrite Hi. auto.
      * unfold updateActivity_resumed. rewrite Ha. auto.
Qed.

Lemma tracker_run_tracked es : forall t,
  tracked t -> tracked (tracker_run t es).
Proof.
  induction es as [|e es IH]; intros t Ht; [exact Ht|].
  apply IH. now apply tracker_step_tracked.
Qed.

(** Once no timeout is pending, only an activity update that settles sets
    one again; until then nothing is written to the response record. *)
Lemma no_timeout_stays es : forall t,
  inactivityTimeout t = None ->
  no_update es ->
  inactivityTimeout (tracker_run t es) = None
  /\ abandoned_writes (tracker_run t es) = abandoned_writes t.
Proof.
  induction es as [|e es IH]; intros t Ht Hes; [auto|].
  apply Forall_cons in Hes as [He Hes].
  assert (Hstep : inactivityTimeout (tracker_step t e) = None
                  /\ abandoned_writes (tracker_step t e) = abandoned_writes t).
  { destruct e as [ms| |]; simpl.
    - unfold elapse. now rewrite Ht.
    - unfold updateActivity.
      destruct (activityInterval t), (opt_str_truthy (sessionId t)); auto.
    - congruence. }
  destruct Hstep as [Ht' Hw]. destruct (IH _ Ht' Hes) as [? Hw'].
  unfold tracker_run in *. simpl. split; congruence.
Qed.

(** A pending timeout that sees no activity update for the time it has
    left fires once, whatever heartbeats are attempted meanwhile. *)
Lemma window_fires_once es : forall t remaining,
  opt_str_truthy (responseId t) = true ->
  inactivityTimeout t = Some remaining -> (0 < remaining)%N ->
  no_update es -> (remaining <= elapsed es)%N ->
  abandoned_writes (tracker_run t es) = S (abandoned_writes t)
  /\ inactivityTimeout (tracker_run t es) = None.
Proof.
  induction es as [|e es IH]; intros t remaining Hr Hpending Hpos Hes Hdue.
  - simpl in Hdue. lia.
  - apply Forall_cons in Hes as [He Hes].
    change (tracker_run t (e :: es))
      with (tracker_run (tracker_step t e) es).
    destruct e as [ms| |]; [| |congruence]; simpl in Hdue |- *.
    + unfold elapse. rewrite Hpending.
      destruct (N.leb_spec remaining ms) as [Hle|Hlt].
      * unfold markAbandoned. simpl. rewrite Hr. simpl.
        now destruct (no_timeout_stays es
                        {| formId := formId t; responseId := responseId t;
                           sessionId := sessionId t;
                           activityInterval := activityInterval t;
                           inactivityTimeout := None;
                           awaited := awaited t;
                           activity_writes := activity_writes t;
                           abandoned_writes := S (abandoned_writes t) |}
                        eq_refl Hes).
      * match goal with
        | |- context [tracker_run ?t' es] =>
            destruct (IH t' (remaining - ms)%N) as [Hw Hn];
              simpl; trivial; try lia
        end.
        now split.
    + unfold updateActivity.
      destruct (activityInterval t); [destruct (negb _)|];
        match goal with
        | |- context [tracker_run ?t' es] =>
            destruct (IH t' remaining) as [Hw Hn]; simpl; trivial
        end;
        now split.
Qed.

(** C8 (as amended): a pending timeout that sees no activity update
    settle for the time it has left fires once: exactly one
    abandoned-mark write, no timeout pending afterwards, and none set
    again until an activity update settles. A heartbeat that fires with
    the session identifier known, and whose update settles before the
    window elapses, prevents that write and sets the timeout to a full
    window; a heartbeat without the session identifier changes nothing. *)
Theorem liveness_tracker (form response sid : option jsstring)
    (es : list tick) :
  let t := tracker_run (mount form response sid) es in
  (forall remaining es',
      inactivityTimeout t = Some remaining ->
      no_update es' -> (remaining <= elapsed es')%N ->
      abandoned_writes (tracker_run t es') = S (abandoned_writes t)
      /\ inactivityTimeout (tracker_run t es') = None)
  /\ (forall remaining ms ms',
        opt_str_truthy (sessionId t) = true ->
        activityInterval t = true ->
        inactivityTimeout t = Some remaining -> (ms + ms' < remaining)%N ->
        let t' := tracker_run t [Elapse ms; Heartbeat; Elapse ms'; Settled] in
        abandoned_writes t' = abandoned_writes t
        /\ activity_writes t' = S (activity_writes t)
        /\ inactivityTimeout t' = Some inactivity_window)
  /\ (opt_str_truthy (sessionId t) = false -> tracker_step t Heartbeat = t).
Proof.
  intros t.
  assert (Htr : tracked t) by apply tracker_run_tracked, mount_tracked.
  destruct Htr as [Hpos Hguard].
  repeat apply conj.
  - intros remaining es' Hpending Hes Hdue.
    apply (window_fires_once es' t remaining); auto.
    destruct Hguard as [?|(Hnone & _)]; [trivial | congruence].
  - intros remaining ms ms' Hsid Hint Hpending Hlt. cbn zeta.
    unfold tracker_run. cbn [fold_left tracker_step].
    assert (He : elapse ms t
                 = {| formId := formId t; responseId := responseId t;
                      sessionId := sessionId t;
                      activityInterval := activityInterval t;
                      inactivityTimeout := Some (remaining - ms)%N;
                      awaited := awaited t;
                      activity_writes := activity_writes t;
                      abandoned_writes := abandoned_writes t |}).
    { unfold elapse. rewrite Hpending.
      destruct (N.leb_spec remaining ms) as [Hle|_]; [lia | reflexivity]. }
    rewrite He. cbn [activityInterval]. rewrite Hint.
    unfold updateActivity. cbn [sessionId]. rewrite Hsid. cbn [negb].
    unfold elapse. cbn [inactivityTimeout].
    destruct (N.leb_spec (remaining - ms) ms') as [Hle|_]; [lia|].
    unfold updateActivity_resumed. cbn. auto.
  - intros Hsid. simpl. unfold updateActivity. rewrite Hsid.
    now destruct (activityInterval t).
Qed.

(** X4: the cleanup of the effect cancels both timers; with no activity
    update awaited, nothing is written afterwards. *)
Theorem cleanup_cancels (t : tracker) (es : list tick) :
  awaited t = 0 ->
  let t' := tracker_run (cleanup t) es in
  activityInterval t' = false
  /\ inactivityTimeout t' = None
  /\ activity_writes t' = activity_writes t
  /\ abandoned_writes t' = abandoned_writes t.
Proof.
  intros Hnone. cbn zeta.
  assert (Hinv : forall es u,
            activityInterval u = false -> inactivityTimeout u = None ->
            awaited u = 0 -> tracker_run u es = u).
  { clear. induction es as [|e es IH]; intros u Hi Ht Ha; [reflexivity|].
    unfold tracker_run in *. simpl.
    assert (Hstep : tracker_step u e = u).
    { destruct e as [ms| |]; simpl.
      - unfold elapse. now rewrite Ht.
      - now rewrite Hi.
      - unfold updateActivity_resumed. now rewrite Ha. }
    rewrite Hstep. now apply IH. }
  rewrite Hinv by (simpl; trivial). simpl. auto.
Qed.

(** ** Thresholds of zero *)

(** C2: the threshold of a rule is tested for truthiness before it is
    compared, so a declared threshold of [0] switches its rule off: with
    [min = 0] the number [-5] is accepted, although [-5 < 0]; with
    [min = 1] it gets the below-minimum error. Likewise [max = 0] accepts
    [5] and [maxLength = 0] accepts a string of three code units. The
    value is tested the same way: the number [0] counts as no answer, and
    an optional field with [min = 5] accepts it. *)
Theorem zero_threshold_is_ignored (req : bool) :
  validateField (sample_field "age" number_t req (Some (only_min 0)))
    (VNum (Finite (-5))) = Ok None
  /\ validateField (sample_field "age" number_t req (Some (only_min 1)))
       (VNum (Finite (-5)))
     = Ok (Some (lit "age" ++ msg_at_least ++ Number_toString (Finite 1)))
  /\ validateField (sample_field "age" number_t req (Some (only_max 0)))
       (VNum (Finite 5)) = Ok None
  /\ validateField (sample_field "name" text req (Some (only_maxLength 0)))
       (VStr (lit "abc")) = Ok None
  /\ validateField (sample_field "age" number_t false (Some (only_min 5)))
       (VNum (Finite 0)) = Ok None.
Proof. destruct req; repeat split. Qed.

(** ** The order of the rules *)

(** X1: [validateField] is the list of the seven rules, required-empty,
    absent-optional skip, minLength, maxLength, min, max, pattern, read in
    that order up to the first rule that applies. *)
Theorem validateField_first_applying (field : FormField) (v : value) :
  validateField field v = first_applying rules field v.
Proof.
  unfold validateField, rules, first_applying, rule_required,
    rule_absent_optional.
  destruct (required field && _); [reflexivity|].
  destruct (negb (truthy v) && _); [reflexivity|].
  unfold rule_minLength, rule_maxLength, rule_min, rule_max, rule_pattern,
    declared, declared_pattern, show.
  destruct (validation field) as [c|]; [|reflexivity].
  cbn [mbind option_bind].
  destruct (minLength c) as [n1|], (maxLength c) as [n2|],
    (min c) as [n3|], (max c) as [n4|], (pattern c) as [p|];
    destruct v as [| |b|x|s|l|];
    cbn [mbind option_bind opt_num_truthy opt_str_truthy ToNumber_opt
         length_lt length_gt value_lt value_gt default from_option id andb];
    rewrite ?andb_false_r;
    repeat match goal with
           | |- context [num_truthy ?n] =>
               destruct (num_truthy n); cbn [andb]
           | |- context [str_truthy ?p] => destruct (str_truthy p)
           | |- context [num_lt ?a ?b] => destruct (num_lt a b)
           | |- context [num_gt ?a ?b] => destruct (num_gt a b)
           | |- context [RegExp_test ?p ?s] =>
               destruct (RegExp_test p s) as [[]|]
           end;
    reflexivity.
Qed.

(** X3: on a string that is not blank, a field whose only constraint is
    a pattern gets the format error exactly when the string does not
    match. *)
Theorem pattern_rule (field : FormField) (c : Validation) (p s : jsstring) :
  validation field = Some c ->
  pattern c = Some p -> str_truthy p = true ->
  minLength c = None -> maxLength c = None ->
  blank (VStr s) = false ->
  (RegExp_test p s = Some false ->
     validateField field (VStr s) = Ok (Some (label field ++ msg_format)))
  /\ (RegExp_test p s = Some true ->
      validateField field (VStr s) = Ok None).
Proof.
  intros Hc Hp Hpt Hmin Hmax Hblank.
  assert (Ht : truthy (VStr s) = true) by (now destruct s).
  unfold validateField.
  rewrite is_blank_string_blank, Hblank, Ht, Hc, Hmin, Hmax, Hp. simpl.
  rewrite Hpt, !andb_false_r. simpl.
  split; intros ->; reflexivity.
Qed.

(** * More of the engine *)

(** ** What the text inputs store *)

(** X5: clearing a text input stores the change event, not the empty
    string: the field then holds an object, which validation accepts
    whatever the field requires or declares, and which counts as an
    answer in the progress. *)
Theorem cleared_input_is_accepted (field : FormField) (st : state) :
  let st' := onChange field [] st in
  get (formData st') (key field) = VObj
  /\ validateField field (get (formData st') (key field)) = Ok None
  /\ answered (get (formData st') (key field)) = true.
Proof.
  cbn zeta. unfold onChange, handleFieldChange, get. simpl.
  rewrite lookup_insert_eq. simpl. repeat apply conj; trivial.
  unfold validateField. simpl. rewrite andb_false_r. simpl.
  destruct (validation field) as [c|]; [|reflexivity].
  rewrite !andb_false_r. now destruct (pattern c).
Qed.

(** X6: a string is never compared with [min] or [max], and a number
    never with [minLength], [maxLength] or the pattern; so what a text
    input stores, also the input of a number field, is never held against
    the numeric bounds. *)
Theorem rules_follow_the_type (field : FormField) :
  (forall s, validateField field (VStr s)
             = validateField (without_bounds field) (VStr s))
  /\ (forall text, validateField field (changed_value text)
                   = validateField (without_bounds field) (changed_value text))
  /\ (forall x, validateField field (VNum x)
                = validateField (without_text_rules field) (VNum x)).
Proof.
  assert (Hs : forall s, validateField field (VStr s)
                         = validateField (without_bounds field) (VStr s)).
  { intros s. unfold validateField, without_bounds; simpl.
    destruct (validation field) as [c|]; simpl; [|reflexivity].
    now rewrite !andb_false_r. }
  repeat apply conj; trivial.
  - intros text. unfold changed_value. destruct (str_truthy text); [apply Hs|].
    unfold validateField, without_bounds; simpl.
    destruct (validation field) as [c|]; simpl; [|reflexivity].
    now rewrite !andb_false_r.
  - intros x. unfold validateField, without_text_rules; simpl.
    destruct (validation field) as [c|]; simpl; [|reflexivity].
    rewrite !andb_false_r. now destruct (pattern c).
Qed.

(** X7: a value that is neither a string nor a number (a boolean, an
    array, an object, no value) meets the required rule only: it is
    refused when the field is required and the value is falsy, and
    accepted otherwise, whatever else the field declares. *)
Theorem other_values_meet_required_only (field : FormField) (v : value) :
  is_text_or_number v = false ->
  validateField field v
  = if required field && negb (truthy v)
    then Ok (Some (label field ++ msg_required))
    else Ok None.
Proof.
  intros Hv. unfold validateField.
  destruct v as [| |b|x|s|l|]; try discriminate; simpl;
    rewrite ?orb_false_r, ?andb_false_r;
    destruct (required field); simpl;
    try reflexivity;
    try (destruct b; simpl; try reflexivity);
    destruct (validation field) as [c|]; try reflexivity;
    rewrite !andb_false_r; now destruct (pattern c).
Qed.

(** X8: once a box of a multi-select was toggled the field holds an
    array, and validation accepts it whatever it holds: a required
    multi-select whose boxes were all turned off again is accepted. *)
Theorem touched_multiselect_is_accepted (field : FormField)
    (opts : list FieldOption) (st : state) :
  opts <> [] ->
  exists l,
    get (formData (toggles field opts st)) (key field) = VArr l
    /\ validateField field (VArr l) = Ok None.
Proof.
  intros Hne.
  assert (Harr : exists l,
            get (formData (toggles field opts st)) (key field) = VArr l).
  { destruct opts as [|o opts] using rev_ind; [congruence|]. clear IHopts Hne.
    unfold toggles. rewrite fold_left_app. simpl.
    unfold toggle, onCheckedChange.
    destruct (negb _); eexists; unfold handleFieldChange, get; simpl;
      now rewrite lookup_insert_eq. }
  destruct Harr as [l Hl]. exists l. split; [exact Hl|].
  unfold validateField. simpl. rewrite andb_false_r. simpl.
  destruct (validation field) as [c|]; [|reflexivity].
  rewrite !andb_false_r. now destruct (pattern c).
Qed.

(** ** Progress stays within bounds *)




(** ** Changes compose *)


(** ** Submitting again *)

(** X11: the engine keeps no record of a submission: when the answers are
    accepted, every further attempt calls [onSubmit] again with the same
    answers, and [n] attempts make [n] calls. *)
Theorem every_attempt_submits (s : session) (n : nat) :
  handleSubmit (schema s) (cells s)
  = Ok ({| formData := formData (cells s); errors := ∅ |},
        [formData (cells s)]) ->
  submitted (run s (replicate n SubmitAttempted))
  = submitted s ++ replicate n (formData (cells s))
  /\ formData (cells (run s (replicate n SubmitAttempted)))
     = formData (cells s).
Proof.
  revert s. induction n as [|n IH]; intros s Hs.
  - simpl. now rewrite app_nil_r.
  - unfold run in *. simpl. rewrite Hs.
    match goal with
    | |- context [fold_left step _ ?s'] =>
        destruct (IH s') as [Hsub Hfd]; [exact Hs|]
    end.
    rewrite Hsub, Hfd. simpl. split; [|reflexivity].
    now rewrite <- app_assoc.
Qed.

(** ** The heartbeat keeps the timeout from firing *)

(** Time that passes short of a pending timeout only shortens it. *)
Lemma elapse_pending t remaining ms :
  inactivityTimeout t = Some remaining -> (ms < remaining)%N ->
  elapse ms t
  = {| formId := formId t; responseId := responseId t;
       sessionId := sessionId t; activityInterval := activityInterval t;
       inactivityTimeout := Some (remaining - ms)%N;
       awaited := awaited t;
       activity_writes := activity_writes t;
       abandoned_writes := abandoned_writes t |}.
Proof.
  intros Hpending Hlt. unfold elapse. rewrite Hpending.
  destruct (N.leb_spec remaining ms); [lia | reflexivity].
Qed.

Lemma heartbeat_round_keeps t latency remaining :
  opt_str_truthy (sessionId t) = true ->
  activityInterval t = true ->
  inactivityTimeout t = Some remaining ->
  (heartbeat_period < remaining)%N ->
  (latency < heartbeat_period)%N ->
  let t' := tracker_run t (heartbeat_round latency) in
  sessionId t' = sessionId t
  /\ activityInterval t' = true
  /\ inactivityTimeout t'
     = Some (inactivity_window - (heartbeat_period - latency))%N
  /\ abandoned_writes t' = abandoned_writes t
  /\ activity_writes t' = S (activity_writes t).
Proof.
  intros Hsid Hint Hpending Hrem Hlat. cbn zeta.
  unfold heartbeat_round, tracker_run. cbn [fold_left tracker_step].
  rewrite Hint. unfold updateActivity. rewrite Hsid. cbn [negb].
  rewrite (elapse_pending _ remaining latency) by (trivial || lia).
  unfold updateActivity_resumed, trackInactivity.
  cbn [awaited formId responseId sessionId activityInterval
       activity_writes abandoned_writes].
  rewrite (elapse_pending _ inactivity_window (heartbeat_period - latency))
    by (reflexivity || (unfold heartbeat_period, inactivity_window; lia)).
  cbn [sessionId activityInterval inactivityTimeout abandoned_writes
       activity_writes].
  auto.
Qed.

(** X12: while the effect runs with a session identifier, the interval
    rearms the timeout every 30 seconds whatever the respondent does: as
    long as each activity update settles before the next heartbeat, no
    abandoned-mark write is ever made, and every heartbeat writes the
    activity once. *)
Theorem heartbeats_prevent_abandonment (form response sid : option jsstring)
    (latencies : list N) :
  opt_str_truthy form = true ->
  opt_str_truthy response = true ->
  opt_str_truthy sid = true ->
  Forall (fun latency => (latency < heartbeat_period)%N) latencies ->
  let t := tracker_run (mount form response sid) (heartbeat_rounds latencies) in
  abandoned_writes t = 0
  /\ activity_writes t = length latencies
  /\ is_Some (inactivityTimeout t).
Proof.
  intros Hf Hr Hs Hlat. cbn zeta.
  unfold heartbeat_rounds, tracker_run. cbn [fold_left tracker_step].
  assert (Hinv : forall ls t,
            Forall (fun latency => (latency < heartbeat_period)%N) ls ->
            opt_str_truthy (sessionId t) = true ->
            activityInterval t = true ->
            (exists remaining,
                inactivityTimeout t = Some remaining
                /\ (heartbeat_period < remaining)%N) ->
            let t' := fold_left tracker_step (concat (heartbeat_round <$> ls)) t in
            abandoned_writes t' = abandoned_writes t
            /\ activity_writes t' = (activity_writes t + length ls)%nat
            /\ is_Some (inactivityTimeout t')).
  { clear. induction ls as [|latency ls IH];
      intros t Hls Hsid Hint (remaining & Hpending & Hrem); cbn zeta.
    - simpl. rewrite Nat.add_0_r, Hpending. eauto.
    - apply Forall_cons in Hls as [Hlat Hls].
      rewrite fmap_cons.
      change (concat (heartbeat_round latency :: (heartbeat_round <$> ls)))
        with (heartbeat_round latency ++ concat (heartbeat_round <$> ls)).
      rewrite fold_left_app.
      destruct (heartbeat_round_keeps t latency remaining)
        as (Hsid' & Hint' & Hpending' & Hab & Hact); trivial.
      unfold tracker_run in *.
      destruct (IH (fold_left tracker_step (heartbeat_round latency) t))
        as (Hab2 & Hact2 & Hsome); trivial.
      + congruence.
      + eexists. split; [exact Hpending'|].
        unfold heartbeat_period, inactivity_window in *. lia.
      + rewrite Hab2, Hact2, Hab, Hact. simpl.
        repeat split; trivial; lia. }
  set (t0 := elapse heartbeat_period (mount form response sid)).
  assert (Ht0 : t0 = {| formId := form; responseId := response;
                        sessionId := sid; activityInterval := true;
                        inactivityTimeout :=
                          Some (inactivity_window - heartbeat_period)%N;
                        awaited := 0; activity_writes := 0;
                        abandoned_writes := 0 |}).
  { subst t0. unfold mount. rewrite Hf, Hr. reflexivity. }
  assert (H1 : opt_str_truthy (sessionId t0) = true) by now rewrite Ht0.
  assert (H2 : activityInterval t0 = true) by now rewrite Ht0.
  assert (H3 : exists remaining,
             inactivityTimeout t0 = Some remaining
             /\ (heartbeat_period < remaining)%N).
  { rewrite Ht0. eexists. split; [reflexivity|]. vm_compute. reflexivity. }
  destruct (Hinv latencies t0 Hlat H1 H2 H3) as (Hab & Hact & Hsome).
  repeat apply conj; [now rewrite Hab, Ht0 | now rewrite Hact, Ht0 | exact Hsome].
Qed.

(** ** An activity update that outlives the effect *)

(** X13: the cleanup clears the timers but not an activity update that
    is awaited: when it settles it sets a new timeout, and five minutes
    later the response is marked abandoned although the form is no longer
    shown. *)
Theorem awaited_update_outlives_cleanup (t : tracker) :
  awaited t <> 0 ->
  opt_str_truthy (responseId t) = true ->
  inactivityTimeout (tracker_run (cleanup t) [Settled])
  = Some inactivity_window
  /\ abandoned_writes
       (tracker_run (cleanup t) [Settled; Elapse inactivity_window])
     = S (abandoned_writes t).
Proof.
  intros Haw Hr. unfold tracker_run. cbn [fold_left tracker_step].
  unfold updateActivity_resumed, cleanup. cbn [awaited].
  destruct (awaited t) as [|n]; [congruence|].
  split; [reflexivity|].
  unfold elapse, trackInactivity. cbn [inactivityTimeout].
  rewrite N.leb_refl. unfold markAbandoned. cbn [responseId].
  rewrite Hr. reflexivity.
Qed.

(** * The pages *)

(** ** Submitting on the answering page *)

(** X14: the handler of the answering page does nothing while an
    identifier or the schema is missing. Otherwise it first marks the
    response submitted and sends the items only when that succeeded; it
    shows one toast, the success one exactly when both requests
    succeeded, and leaves [submitting] false. So when the items are
    refused the response has already been marked submitted. *)
Theorem answering_page_submit (update_ok insert_ok : bool)
    (formData : AnswerMap) (p : FormResponse.page) :
  (ready p = false ->
   FormResponse.handleSubmit update_ok insert_ok formData p = (p, [], []))
  /\ (ready p = true ->
      exists r,
        FormResponse.responseId p = Some r
        /\ let '(p', requests, toasts) :=
             FormResponse.handleSubmit update_ok insert_ok formData p in
           FormResponse.submitting p' = false
           /\ FormResponse.id p' = FormResponse.id p
           /\ FormResponse.schema p' = FormResponse.schema p
           /\ FormResponse.responseId p' = FormResponse.responseId p
           /\ requests
              = FormResponse.UpdateStatusSubmitted r
                :: (if update_ok
                    then [FormResponse.InsertItems
                            (FormResponse.responseItems r formData)]
                    else [])
           /\ toasts
              = [if update_ok && insert_ok
                 then FormResponse.ToastSuccess
                 else FormResponse.ToastError]).
Proof.
  unfold ready, FormResponse.handleSubmit. split.
  - intros Hnot. destruct (FormResponse.schema p) as [sch|]; [|reflexivity].
    rewrite bool_decide_eq_true_2 in Hnot by eauto.
    rewrite andb_true_r in Hnot.
    apply andb_false_iff in Hnot as [-> | ->]; simpl; trivial.
    now rewrite orb_true_r.
  - intros Hready.
    apply andb_true_iff in Hready as [Hready Hr].
    apply andb_true_iff in Hready as [Hid Hsch].
    apply bool_decide_eq_true in Hsch as [sch Hsch].
    destruct (FormResponse.responseId p) as [r|] eqn:Er; [|discriminate].
    exists r. split; [reflexivity|].
    rewrite Hsch, Hid. simpl in Hr |- *. rewrite Hr. simpl.
    destruct update_ok, insert_ok; simpl; repeat split; congruence.
Qed.

(** ** From the answers to the list of responses *)




(** ** The statistics of the list *)




(** ** The exported file *)

(** X17: the export writes nothing without responses; otherwise it writes
    the header and one line for each response, and before the cells are
    joined every line has as many cells as the header, five and one for
    each field of the schema; a response without an item for a field has
    two double quotes in its cell. *)
Theorem export_lines_align (JSON_stringify : value -> jsstring)
    (toLocaleString : jsstring -> jsstring)
    (form : FormResponses.FormData) (responses : list FormResponses.Response) :
  Forall (fun line =>
            length line = (5 + length (FormResponses.schema_fields form))%nat)
         (FormResponses.csv_lines JSON_stringify toLocaleString form responses)
  /\ length (FormResponses.csv_lines JSON_stringify toLocaleString form
               responses)
     = S (length responses)
  /\ (FormResponses.exportToCSV JSON_stringify toLocaleString (Some form)
        responses = None <-> responses = [])
  /\ FormResponses.exportToCSV JSON_stringify toLocaleString None responses
     = None
  /\ (forall r field,
        FormResponses.find_item (FormResponses.response_items r) (key field)
        = None ->
        FormResponses.cell JSON_stringify r field = [34%N; 34%N]).
Proof.
  split; [|split; [|split; [|split]]].
  - unfold FormResponses.csv_lines. apply Forall_cons. split.
    + cbn beta. unfold FormResponses.headers.
      now rewrite length_app, length_fmap.
    + apply Forall_fmap, Forall_forall. intros r _. cbn beta.
      unfold compose, FormResponses.row.
      now rewrite length_app, length_fmap.
  - unfold FormResponses.csv_lines. simpl. now rewrite length_fmap.
  - unfold FormResponses.exportToCSV. now destruct responses.
  - reflexivity.
  - intros r field Hnone. unfold FormResponses.cell. now rewrite Hnone.
Qed.

(** ** When a validation throws *)

Lemma throws_only_on_pattern_aux (field : FormField) (v : value) (e : exn) :
  validateField field v = Throw e ->
  exists c p s,
    validation field = Some c /\ pattern c = Some p
    /\ str_truthy p = true
    /\ v = VStr s /\ str_truthy s = true
    /\ RegExp_test p s = None.
Proof.
  unfold validateField.
  destruct (required field && _) eqn:Ereq; [discriminate|].
  destruct (negb (truthy v) && _) eqn:Eopt; [discriminate|].
  destruct (validation field) as [c|] eqn:Ec; [|discriminate].
  repeat match goal with
         | |- context [if ?b then Ok _ else _] => destruct b; [discriminate|]
         end.
  destruct (pattern c) as [p|] eqn:Epat; [|discriminate].
  destruct v as [| | | |s| |]; try discriminate.
  destruct (str_truthy p) eqn:Ep; [|discriminate].
  destruct (RegExp_test p s) as [matches|] eqn:Et;
    [destruct (negb matches); discriminate|].
  intros _. exists c, p, s. repeat split; trivial.
  destruct s; [|reflexivity]. simpl in Ereq, Eopt.
  destruct (required field); discriminate.
Qed.

(** X18: [validateField] throws only from the pattern rule: the field
    declares a non-empty pattern that does not compile and the value is
    a non-empty string. A pattern that does not compile goes unnoticed
    until its field holds such a string. *)
Theorem throws_only_on_pattern (field : FormField) (v : value) (e : exn) :
  validateField field v = Throw e ->
  exists c p s,
    validation field = Some c /\ pattern c = Some p
    /\ str_truthy p = true
    /\ v = VStr s /\ str_truthy s = true
    /\ RegExp_test p s = None.
Proof. apply throws_only_on_pattern_aux. Qed.

(** X19: a submit attempt returns, with its error map, whenever each
    field either holds no non-empty string or declares no pattern that
    fails to compile; so it returns on every schema while nothing was
    typed. *)
Theorem submit_returns (sch : FormSchema) (st : state) :
  (forall field,
      field ∈ fields sch ->
      (forall s, get (formData st) (key field) = VStr s -> s = [])
      \/ (forall c p s,
             validation field = Some c -> pattern c = Some p ->
             RegExp_test p s <> None)) ->
  exists newErrors calls,
    handleSubmit sch st
    = Ok ({| formData := formData st; errors := newErrors |}, calls).
Proof.
  intros Hsafe. unfold handleSubmit.
  destruct (validate_fields_returns (fields sch) (formData st) ∅ false)
    as (b & -> & _).
  - intros field Hin Hthrow.
    apply throws_only_on_pattern_aux in Hthrow
      as (c & p & s & Hc & Hp & _ & Hv & Hs & Ht).
    destruct (Hsafe field Hin) as [Hempty | Hcompiles].
    + apply Hempty in Hv. now subst s.
    + now apply (Hcompiles c p s).
  - cbn. eauto.
Qed.

(** ** Progress never goes down *)








(** ** Toggling twice *)

Lemma without_not_in l x : x ∉ l -> without l x = l.
Proof.
  induction l as [|y l IH]; intros Hnot; simpl; [reflexivity|].
  apply not_elem_of_cons in Hnot as [Hne Hnot].
  rewrite bool_decide_eq_false_2 by congruence. simpl. now rewrite IH.
Qed.

Lemma without_app l k x : without (l ++ k) x = without l x ++ without k x.
Proof. apply List.filter_app. Qed.

(** X21: a box that was off and is toggled on and off again leaves the
    sequence as it was; a box that was on and is toggled off and on again
    moves its value to the end of the sequence. *)
Theorem toggle_twice (field : FormField) (option : FieldOption) (st : state) :
  let sel := selectedValues st field in
  let o := opt_value option in
  (o ∉ sel ->
   selectedValues (toggle field option (toggle field option st)) field = sel)
  /\ (o ∈ sel ->
      selectedValues (toggle field option (toggle field option st)) field
      = without sel o ++ [o]).
Proof.
  cbn zeta. split; intros Ho.
  - rewrite toggle_off; rewrite toggle_on by trivial.
    + rewrite without_app, without_not_in by trivial. simpl.
      rewrite bool_decide_eq_true_2 by reflexivity. simpl.
      now rewrite app_nil_r.
    + apply elem_of_app. right. now left.
  - rewrite toggle_on; rewrite toggle_off by trivial; [reflexivity|].
    rewrite without_spec. tauto.
Qed.

(** ** An error goes with the change and comes back with the submit *)

(** X22: when a field is changed to a value that is still invalid, its
    error is gone until the next attempt; the next submit attempt brings
    the error of that value back under the field's key and does not call
    [onSubmit]. *)
Theorem error_returns_on_submit (sch : FormSchema) (st : state)
    (field : FormField) (v : value) (e : jsstring) :
  NoDup (key <$> fields sch) ->
  field ∈ fields sch ->
  validateField field v = Ok (Some e) ->
  (forall f, f ∈ fields sch ->
     validateField f
       (get (formData (handleFieldChange (key field) v st)) (key f))
     <> Throw SyntaxError) ->
  error_at (errors (handleFieldChange (key field) v st)) (key field) = None
  /\ exists errors',
       handleSubmit sch (handleFieldChange (key field) v st)
       = Ok ({| formData := <[key field := v]> (formData st);
                errors := errors' |}, [])
       /\ error_at errors' (key field) = Some e.
Proof.
  intros Hnd Hin Hinvalid Hok.
  set (st' := handleFieldChange (key field) v st) in *.
  assert (Hget : get (formData st') (key field) = v).
  { unfold get. simpl. now rewrite lookup_insert_eq. }
  split.
  - unfold error_at. simpl.
    destruct (errors st !! key field) as [[|c m]|] eqn:E; simpl.
    + now rewrite E.
    + now rewrite lookup_insert_eq.
    + now rewrite E.
  - unfold handleSubmit.
    destruct (validate_fields_returns (fields sch) (formData st') ∅ false Hok)
      as (b & -> & Hb).
    assert (Hfail : failure (formData st') field = Some e).
    { apply failure_spec. now rewrite Hget. }
    assert (b = true) as ->.
    { apply Hb. right. exists field. split; [trivial|]. now exists e. }
    cbn. eexists. split; [reflexivity|].
    rewrite error_at_collect.
    rewrite collect_unique by (trivial || (intros; apply lookup_empty)).
    exact Hfail.
Qed.

End Engine.

(** * The properties on concrete forms *)

(** C1, a form on which the claim as stated fails: the pattern of the
    first field does not compile, the pass throws on it, the required
    second field is never validated and no error map is produced. *)
Lemma submit_contract_counterexample :
  ~ submit_contract_as_stated sample_RegExp_test sample_Number_toString
      broken_pattern_schema zip_answered.
Proof.
  intros (newErrors & calls & H & _).
  rewrite handleSubmit_throws in H; [discriminate|].
  exists (sample_field "zip" text false (Some (only_pattern "["))).
  split; [left | reflexivity].
Qed.

(** C1, the contract on the e-mail form of the specification: answered,
    it is submitted once with its answers and no error. *)
Lemma submit_contract_witness :
  handleSubmit sample_RegExp_test sample_Number_toString
    email_schema email_answered
  = Ok ({| formData := formData email_answered; errors := ∅ |},
        [formData email_answered]).
Proof.
  destruct (submit_contract sample_RegExp_test sample_Number_toString
              email_schema email_answered)
    as (newErrors & calls & Hs & Hc & _ & _ & _ & Hcalls & _).
  - intros field Hin. apply list_elem_of_singleton in Hin. subst field.
    vm_compute. discriminate.
  - assert (Hnone : newErrors = ∅) by (rewrite Hc; vm_compute; reflexivity).
    rewrite Hs, Hnone. f_equal. f_equal. apply Hcalls.
    intros k. rewrite Hnone. unfold error_at. now rewrite lookup_empty.
Defined.

(** C3, values on which the claim as stated fails: [false] and [0] are
    neither absent nor strings and violate no constraint, yet a required
    field refuses them with the required error. *)
Lemma required_rule_counterexample :
  ~ required_rule_as_stated sample_RegExp_test sample_Number_toString
      (sample_field "agree" checkbox true None) (VBool false)
  /\ ~ required_rule_as_stated sample_RegExp_test sample_Number_toString
         (sample_field "count" number_t true None) (VNum (Finite 0)).
Proof.
  split; intros H; destruct (H eq_refl) as [_ H2];
    specialize (H2 eq_refl eq_refl); vm_compute in H2; discriminate.
Qed.

(** C3, the rule on a required five-digit field: blank is refused with
    the required error, five digits are accepted. *)
Lemma required_rule_witness :
  required (sample_field "zip" text true (Some (only_pattern "^\d{5}$")))
  = true
  /\ validateField sample_RegExp_test sample_Number_toString
       (sample_field "zip" text true (Some (only_pattern "^\d{5}$")))
       (VStr (lit "  "))
     = Ok (Some (lit "zip" ++ msg_required))
  /\ validateField sample_RegExp_test sample_Number_toString
       (sample_field "zip" text true (Some (only_pattern "^\d{5}$")))
       (VStr (lit "12345"))
     = Ok None.
Proof.
  split; [reflexivity|]. split.
  - apply (required_rule sample_RegExp_test sample_Number_toString
             (sample_field "zip" text true (Some (only_pattern "^\d{5}$")))
             (VStr (lit "  ")));
      reflexivity.
  - apply (required_rule sample_RegExp_test sample_Number_toString
             (sample_field "zip" text true (Some (only_pattern "^\d{5}$")))
             (VStr (lit "12345")));
      reflexivity.
Defined.


(** C7, an optional field that declares every constraint, one of them a
    pattern that does not compile: no answer, no error. *)
Lemma optional_absent_is_valid_witness :
  required (sample_field "code" text false (Some every_constraint)) = false
  /\ absent VUndefined = true
  /\ validateField sample_RegExp_test sample_Number_toString
       (sample_field "code" text false (Some every_constraint)) VUndefined
     = Ok None.
Proof.
  split; [reflexivity|]. split; [reflexivity|].
  apply (optional_absent_is_valid sample_RegExp_test sample_Number_toString
           (sample_field "code" text false (Some every_constraint))
           VUndefined);
    reflexivity.
Defined.

(** C8, a tracker on which the claim as stated fails: without a session
    identifier a heartbeat rearms nothing, and after ten heartbeats in
    five minutes the response is marked abandoned. *)
Lemma heartbeat_without_session_counterexample :
  ~ liveness_as_stated silent_tracker
  /\ abandoned_writes (tracker_run silent_tracker ten_heartbeats) = 1.
Proof.
  split; [|vm_compute; reflexivity].
  intros [_ H].
  specialize (H 300000%N 30000%N eq_refl eq_refl eq_refl).
  cbn zeta in H. destruct H as [_ H]. vm_compute in H. discriminate.
Qed.

(** X2: submitting the e-mail form with no answer: the error map holds
    the required message under [email], and [onSubmit] is not called. *)
Theorem submit_empty_email_form
    (RegExp_test : jsstring -> jsstring -> option bool)
    (Number_toString : number -> jsstring) :
  handleSubmit RegExp_test Number_toString email_schema initial
  = Ok ({| formData := ∅;
           errors := {[ lit "email" := lit "email" ++ msg_required ]} |},
        []).
Proof. reflexivity. Qed.

(** X3 on the five-digit pattern of the specification: four digits get
    the format error, five get none. *)
Lemma pattern_rule_witness :
  validateField sample_RegExp_test sample_Number_toString
    (sample_field "zip" text false (Some (only_pattern "^\d{5}$")))
    (VStr (lit "1234"))
  = Ok (Some (lit "zip" ++ msg_format))
  /\ validateField sample_RegExp_test sample_Number_toString
       (sample_field "zip" text false (Some (only_pattern "^\d{5}$")))
       (VStr (lit "12345"))
     = Ok None.
Proof.
  split.
  - apply (pattern_rule sample_RegExp_test sample_Number_toString
             (sample_field "zip" text false (Some (only_pattern "^\d{5}$")))
             (only_pattern "^\d{5}$") (lit "^\d{5}$") (lit "1234"));
      reflexivity.
  - apply (pattern_rule sample_RegExp_test sample_Number_toString
             (sample_field "zip" text false (Some (only_pattern "^\d{5}$")))
             (only_pattern "^\d{5}$") (lit "^\d{5}$") (lit "12345"));
      reflexivity.
Defined.

(** X4 on the tracker without a session: cleaned up, five minutes of
    heartbeats write nothing. *)
Lemma cleanup_cancels_witness :
  awaited silent_tracker = 0
  /\ abandoned_writes (tracker_run (cleanup silent_tracker) ten_heartbeats)
     = abandoned_writes silent_tracker.
Proof.
  split; [reflexivity|].
  apply (cleanup_cancels silent_tracker ten_heartbeats). reflexivity.
Defined.

(** X7 on a required multi-select that declares every constraint: the
    empty array is accepted. *)
Lemma other_values_meet_required_only_witness :
  is_text_or_number (VArr []) = false
  /\ validateField sample_RegExp_test sample_Number_toString
       required_multiselect (VArr [])
     = Ok None.
Proof.
  split; [reflexivity|].
  exact (other_values_meet_required_only sample_RegExp_test
           sample_Number_toString required_multiselect (VArr []) eq_refl).
Defined.

(** X8 on the required multi-select: [a] turned on and off again. *)
Lemma touched_multiselect_is_accepted_witness :
  exists l,
    get (formData (toggles required_multiselect
                     [sample_option "a"; sample_option "a"] initial))
        (key required_multiselect) = VArr l
    /\ validateField sample_RegExp_test sample_Number_toString
         required_multiselect (VArr l) = Ok None.
Proof.
  apply (touched_multiselect_is_accepted sample_RegExp_test
           sample_Number_toString required_multiselect
           [sample_option "a"; sample_option "a"] initial).
  discriminate.
Defined.


(** X11 on the answered e-mail form: three attempts, three calls. *)
Lemma every_attempt_submits_witness :
  submitted (run sample_RegExp_test sample_Number_toString
               {| schema := email_schema; cells := email_answered;
                  submitted := [] |}
               (replicate 3 SubmitAttempted))
  = replicate 3 (formData email_answered).
Proof.
  apply (every_attempt_submits sample_RegExp_test sample_Number_toString
           {| schema := email_schema; cells := email_answered;
              submitted := [] |} 3).
  reflexivity.
Defined.

(** X12 on a tracker with a session: three heartbeats, none abandons. *)
Lemma heartbeats_prevent_abandonment_witness :
  abandoned_writes (tracker_run live_tracker (heartbeat_rounds [0; 29999; 1500]%N))
  = 0.
Proof.
  apply (heartbeats_prevent_abandonment (Some (lit "form-1"))
           (Some (lit "response-1")) (Some (lit "session-1"))
           [0; 29999; 1500]%N);
    try reflexivity.
  repeat constructor.
Defined.

(** X13 on a tracker whose first heartbeat is still awaited. *)
Lemma awaited_update_outlives_cleanup_witness :
  awaited (tracker_run live_tracker [Elapse 30000; Heartbeat]) <> 0
  /\ abandoned_writes
       (tracker_run
          (cleanup (tracker_run live_tracker [Elapse 30000; Heartbeat]))
          [Settled; Elapse inactivity_window])
     = 1.
Proof.
  split; [discriminate|].
  apply (awaited_update_outlives_cleanup
           (tracker_run live_tracker [Elapse 30000; Heartbeat]));
    [discriminate | reflexivity].
Defined.


(** X18 on the pattern that does not compile. *)
Lemma throws_only_on_pattern_witness :
  exists c p s,
    validation (sample_field "zip" text false (Some (only_pattern "[")))
    = Some c
    /\ pattern c = Some p /\ str_truthy p = true
    /\ VStr (lit "1") = VStr s /\ str_truthy s = true
    /\ sample_RegExp_test p s = None.
Proof.
  apply (throws_only_on_pattern sample_RegExp_test sample_Number_toString
           (sample_field "zip" text false (Some (only_pattern "[")))
           (VStr (lit "1")) SyntaxError).
  reflexivity.
Defined.

(** X19 on the schema with the pattern that does not compile, before
    anything was typed. *)
Lemma submit_returns_witness :
  exists newErrors calls,
    handleSubmit sample_RegExp_test sample_Number_toString
      broken_pattern_schema initial
    = Ok ({| formData := formData initial; errors := newErrors |}, calls).
Proof.
  apply (submit_returns sample_RegExp_test sample_Number_toString
           broken_pattern_schema initial).
  intros field _. left. intros s Hs. discriminate.
Defined.

(** X22 on the e-mail form: after an error, typing blanks clears it and
    the next attempt brings the required error back. *)
Lemma error_returns_on_submit_witness :
  exists errors',
    handleSubmit sample_RegExp_test sample_Number_toString email_schema
      (handleFieldChange (lit "email") (VStr (lit "  ")) email_answered)
    = Ok ({| formData := <[lit "email" := VStr (lit "  ")]>
                           (formData email_answered);
             errors := errors' |}, [])
    /\ error_at errors' (lit "email") = Some (lit "email" ++ msg_required).
Proof.
  apply (error_returns_on_submit sample_RegExp_test sample_Number_toString
           email_schema email_answered
           (sample_field "email" email true None) (VStr (lit "  "))
           (lit "email" ++ msg_required)).
  - compute_done.
  - left.
  - reflexivity.
  - intros f Hf. apply list_elem_of_singleton in Hf. subst f.
    vm_compute. discriminate.
Defined.
